(** * hvad.models: translatable models

    A shallow embedding of [hvad/models.py] and the properties of its
    constraint partitioner, schema synthesis, entity lifecycle and
    consistency checks.

    Conventions.
    - A Python [dict] with string keys is a [gmap string _]; iterating
      [d.items()] is [map_to_list d].  A Python [set] of names is a
      [gset string]; iterating it is [elements].
    - A Python list or tuple is a [list]; [l.append(x)] is [l ++ [x]].
    - A function that may raise returns a [result]; the payload of an
      exception is the tuple of values its message is formatted with.
    - Code of the host framework (Django) is not part of this module: it
      appears as a section variable or as a record field supplied by the
      caller. *)

From Stdlib Require Import Ascii.
From stdpp Require Import gmap strings list fin_maps sets.
From Equations Require Import Equations.

Set Warnings "-register-all".

Open Scope string_scope.
Open Scope list_scope.

(** * Part I: the embedding *)

(** ** Python values and exceptions *)

Module Py.

(** The values that travel through keyword arguments and database rows. *)
Inductive value :=
| None_
| Bool (b : bool)
| Int (z : Z)
| Str (s : string)
| DEFERRED          (* django.db.models.DEFERRED *)
| NoTranslation.    (* hvad.models.NoTranslation = object() *)

#[export] Instance value_eq_dec : EqDecision value.
Proof. solve_decision. Defined.

(** [bool(v)]: what [v or w] and [if v] test. *)
Definition truthy (v : value) : bool :=
  match v with
  | None_ => false
  | Bool b => b
  | Int z => negb (Z.eqb z 0)
  | Str s => negb (String.eqb s "")
  | DEFERRED => true
  | NoTranslation => true
  end.

(** [v or w] *)
Definition or_ (v w : value) : value := if truthy v then v else w.

(** [d.get(k)] *)
Definition dict_get (d : gmap string value) (k : string) : value :=
  default None_ (d !! k).

(** [l.pop()]: remove and return the last item; [None] stands for the
    [IndexError] of an empty list. *)
Definition pop {A} (l : list A) : option (A * list A) :=
  match reverse l with
  | [] => None
  | x :: r => Some (x, reverse r)
  end.

(** Exceptions raised by this module, one constructor per [raise]
    statement (or raising builtin), carrying the format arguments. *)
Inductive exn :=
| ImproperlyConfigured_invalid_field (names : gset string)            (* models.py:36 *)
| ImproperlyConfigured_mixed (option : string) (constraint : list string) (* :51 *)
| ImproperlyConfigured_order_wrt (model_name : string)                (* :58 *)
| ImproperlyConfigured_twice (model : string)                         (* :64 *)
| TypeError_multi_table (base_name model_name : string)               (* :122 *)
| IndexError_pop.                                                     (* list.pop() on [] *)

#[export] Instance exn_eq_dec : EqDecision exn.
Proof. solve_decision. Defined.

Inductive result (A : Type) :=
| Ok (a : A)
| Raise (e : exn).
Arguments Ok {A} a.
Arguments Raise {A} e.

(** Sequencing: an exception of the first statement ends the block. *)
#[export] Instance result_ret : MRet result := λ A a, Ok a.
#[export] Instance result_bind : MBind result := λ A B k r,
  match r with Ok a => k a | Raise e => Raise e end.

Definition raises {A} (r : result A) : bool :=
  match r with Ok _ => false | Raise _ => true end.

End Py.

Import Py.

(** ** Fields and constraints *)

(** A model field, as far as this module looks at it. *)
Module Field.
Record t := mk {
  name : string;      (* field.name *)
  attname : string;   (* field.attname, the storage-column attribute *)
}.
End Field.

#[export] Instance Field_eq_dec : EqDecision Field.t.
Proof. solve_decision. Defined.

(** One entry of [Meta.unique_together] / [Meta.index_together]. *)
Abbreviation constraint := (list string).

(** [chain.from_iterable((f.name, f.attname) for f in fields)] *)
Definition names_and_attnames (fields : list Field.t) : list string :=
  flat_map (λ f, [Field.name f; Field.attname f]) fields.

(** ** TranslatedFields._split_together *)

(** [all(item in fields for item in constraint)] *)
Definition all_in (fields : gset string) (c : constraint) : bool :=
  forallb (λ item, bool_decide (item ∈ fields)) c.

(** [any(item in fields for item in constraint)] *)
Definition any_in (fields : gset string) (c : constraint) : bool :=
  existsb (λ item, bool_decide (item ∈ fields)) c.

(** The [for] loop, with its two accumulators. *)
Fixpoint _split_together_loop (constraints : list constraint)
    (fields : gset string) (name : string)
    (sconst tconst : list constraint)
  : result (list constraint * list constraint) :=
  match constraints with
  | [] => Ok (sconst, tconst)
  | constraint :: rest =>
      if all_in fields constraint then
        _split_together_loop rest fields name sconst (tconst ++ [constraint])
      else if negb (any_in fields constraint) then
        _split_together_loop rest fields name (sconst ++ [constraint]) tconst
      else
        Raise (ImproperlyConfigured_mixed name constraint)
  end.

Definition _split_together (constraints : list constraint)
    (fields : gset string) (name : string)
  : result (list constraint * list constraint) :=
  _split_together_loop constraints fields name [] [].

(** The three kinds of constraint of the specification. *)
Definition all_translated (fields : gset string) (c : constraint) : Prop :=
  Forall (λ item, item ∈ fields) c.
Definition all_shared (fields : gset string) (c : constraint) : Prop :=
  Forall (λ item, item ∉ fields) c.
Definition mixed (fields : gset string) (c : constraint) : Prop :=
  ¬ all_translated fields c ∧ ¬ all_shared fields c.

#[export] Instance all_translated_dec fields c : Decision (all_translated fields c).
Proof. unfold all_translated. apply _. Defined.
#[export] Instance all_shared_dec fields c : Decision (all_shared fields c).
Proof. unfold all_shared. apply _. Defined.
#[export] Instance mixed_dec fields c : Decision (mixed fields c).
Proof. unfold mixed. apply _. Defined.

(** ** Model classes at definition time *)

(** The [_meta] of a translations model, as this module reads it. *)
Module TOptions.
Record t := mk {
  fields : list Field.t;                 (* _meta.fields *)
  pk_name : string;                      (* _meta.pk.name *)
  get_field : string → option Field.t;   (* _meta.get_field(name);
                                            [None] is FieldDoesNotExist *)
}.
End TOptions.

(** A translations model: the class the host's [ModelBase] returns. *)
Module TModel.
Record t := mk {
  name : string;                     (* __name__ *)
  meta : TOptions.t;                 (* _meta *)
  shared_model : option string;      (* _meta.shared_model *)
  DoesNotExist : list string;        (* the bases of its DoesNotExist class *)
}.
End TModel.

(** The [_meta] of a shared model while its class is being built. *)
Module Options.
Record t := mk {
  model_name : string;
  abstract : bool;
  db_tablespace : string;
  managed : bool;
  app_label : string;
  db_table : string;
  order_with_respect_to : option string;
  unique_together : list constraint;
  index_together : list constraint;
  original_attrs : gmap string (list constraint);
  fields : list Field.t;
  translations_model : option TModel.t;    (* hasattr(_meta, 'translations_model') *)
  translations_accessor : option string;
}.

Definition set_unique_together (v : list constraint) (o : t) : t :=
  mk (model_name o) (abstract o) (db_tablespace o) (managed o) (app_label o)
     (db_table o) (order_with_respect_to o) v (index_together o)
     (<["unique_together" := v]> (original_attrs o)) (fields o)
     (translations_model o) (translations_accessor o).

Definition set_index_together (v : list constraint) (o : t) : t :=
  mk (model_name o) (abstract o) (db_tablespace o) (managed o) (app_label o)
     (db_table o) (order_with_respect_to o) (unique_together o) v
     (<["index_together" := v]> (original_attrs o)) (fields o)
     (translations_model o) (translations_accessor o).

Definition set_translations_model (v : TModel.t) (o : t) : t :=
  mk (model_name o) (abstract o) (db_tablespace o) (managed o) (app_label o)
     (db_table o) (order_with_respect_to o) (unique_together o)
     (index_together o) (original_attrs o) (fields o)
     (Some v) (translations_accessor o).

Definition set_translations_accessor (v : string) (o : t) : t :=
  mk (model_name o) (abstract o) (db_tablespace o) (managed o) (app_label o)
     (db_table o) (order_with_respect_to o) (unique_together o)
     (index_together o) (original_attrs o) (fields o)
     (translations_model o) (Some v).

Definition set_fields (v : list Field.t) (o : t) : t :=
  mk (model_name o) (abstract o) (db_tablespace o) (managed o) (app_label o)
     (db_table o) (order_with_respect_to o) (unique_together o)
     (index_together o) (original_attrs o) v
     (translations_model o) (translations_accessor o).
End Options.

(** A class of the hierarchy: [TranslatableModel] itself, or any other
    class with its name, module, [_meta] and [__bases__].  For a class
    that is not a model, [_meta] is never read. *)
Inductive PyClass :=
| TranslatableModel
| Class (cname cmodule : string) (_meta : Options.t) (__bases__ : list PyClass).

(** [TranslatableModel._meta]: an abstract model, with the host's
    defaults. *)
Definition TranslatableModel_meta : Options.t :=
  Options.mk "translatablemodel" true "" true "hvad" "" None [] [] ∅ []
    None None.

(** [models.Model], the only base of [TranslatableModel]. *)
Definition Model_class : PyClass :=
  Class "Model" "django.db.models.base"
    (Options.mk "model" true "" true "" "" None [] [] ∅ [] None None) [].

Definition __name__ (c : PyClass) : string :=
  match c with
  | TranslatableModel => "TranslatableModel"
  | Class cname _ _ _ => cname
  end.

Definition __module__ (c : PyClass) : string :=
  match c with
  | TranslatableModel => "hvad.models"
  | Class _ cmodule _ _ => cmodule
  end.

Definition _meta (c : PyClass) : Options.t :=
  match c with
  | TranslatableModel => TranslatableModel_meta
  | Class _ _ meta _ => meta
  end.

Definition __bases__ (c : PyClass) : list PyClass :=
  match c with
  | TranslatableModel => [Model_class]
  | Class _ _ _ bases => bases
  end.

(** [issubclass(c, TranslatableModel)] *)
Fixpoint issubclass_TranslatableModel (c : PyClass) : bool :=
  match c with
  | TranslatableModel => true
  | Class _ _ _ bases => existsb issubclass_TranslatableModel bases
  end.

Fixpoint class_size (c : PyClass) : nat :=
  match c with
  | TranslatableModel => 1
  | Class _ _ _ bases => S (list_sum (map class_size bases))
  end.

Definition stack_size (l : list PyClass) : nat := list_sum (map class_size l).

(** The bases collected for the translations model. *)
Inductive TranslationsBase :=
| BaseTranslationModel
| Inherited (tm : string)       (* base._meta.translations_model, by name *)
| BaseClass (cls : string).     (* TranslatedFields.base_class *)

#[export] Instance TranslationsBase_eq_dec : EqDecision TranslationsBase.
Proof. solve_decision. Defined.

Lemma pop_snoc {A} (l : list A) x : pop (l ++ [x]) = Some (x, l).
Proof. unfold pop. rewrite reverse_snoc. by rewrite reverse_involutive. Qed.

Lemma pop_Some {A} (l : list A) x r : pop l = Some (x, r) → l = r ++ [x].
Proof.
  unfold pop. destruct (reverse l) as [|y k] eqn:E; [done|].
  intros [= -> <-]. rewrite <- (reverse_involutive l), E.
  by rewrite reverse_cons.
Qed.

Lemma pop_None {A} (l : list A) : pop l = None → l = [].
Proof.
  unfold pop. destruct (reverse l) as [|y k] eqn:E; [|done].
  intros _. rewrite <- (reverse_involutive l), E. done.
Qed.

Lemma stack_size_app l k : stack_size (l ++ k) = stack_size l + stack_size k.
Proof. unfold stack_size. by rewrite map_app, list_sum_app. Qed.

Lemma stack_size_reverse l : stack_size (reverse l) = stack_size l.
Proof.
  unfold stack_size. induction l as [|c l IH]; simpl; [done|].
  rewrite reverse_cons, map_app, list_sum_app. simpl. lia.
Qed.

Definition inspect {A} (a : A) : {b | a = b} := exist _ a eq_refl.

(** ** TranslatedFields._scan_model_bases *)

(** The [while scan_bases:] loop.  [scan_bases] is the Python list, used
    as a stack whose top is its last item. *)
Equations? _scan_model_bases_loop (model_name : string)
    (scan_bases : list PyClass)
    (bases : list TranslationsBase) (fields : gset string)
  : result (list TranslationsBase * gset string)
  by wf (stack_size scan_bases) lt :=
_scan_model_bases_loop model_name scan_bases bases fields
  with inspect (pop scan_bases) := {
  | exist _ None _ => Ok (bases, fields)
  | exist _ (Some (TranslatableModel, rest)) _ =>
      (* base is TranslatableModel: continue *)
      _scan_model_bases_loop model_name rest bases fields
  | exist _ (Some (Class n m meta bs, rest)) _ =>
      if negb (issubclass_TranslatableModel (Class n m meta bs)) then
        _scan_model_bases_loop model_name rest bases fields
      else if negb (Options.abstract meta) then
        Raise (TypeError_multi_table (Options.model_name meta) model_name)
      else
        match Options.translations_model meta with
        | Some tm =>
            _scan_model_bases_loop model_name rest
              (bases ++ [Inherited (TModel.name tm)])
              (fields ∪ list_to_set
                 (Field.name <$> TOptions.fields (TModel.meta tm)))
        | None =>
            _scan_model_bases_loop model_name (rest ++ reverse bs)
              bases fields
        end
  }.
Proof.
  all: apply pop_Some in e; subst scan_bases;
    rewrite ?stack_size_app, ?stack_size_reverse;
    unfold stack_size; simpl; lia.
Qed.

Definition _scan_model_bases (model : PyClass)
  : result (list TranslationsBase * gset string) :=
  '(bases, fields) ←
    _scan_model_bases_loop (Options.model_name (_meta model))
      (reverse (__bases__ model)) [] ∅;
  Ok (bases ++ [BaseTranslationModel], fields).

(** ** TranslatedFields: schema synthesis *)

(** The forbidden names of translated fields. *)
Definition forbidden_translated_fields : list string :=
  ["Meta"; "objects"; "master"; "master_id"].

(** A value of the [Meta] options of the translations model. *)
Inductive MetaValue :=
| MBool (b : bool)
| MStr (s : string)
| MNames (l : list string)
| MTogether (cs : list constraint).

(** An attribute of the class body handed to the host's [ModelBase]. *)
Inductive Attr :=
| FieldDef (definition : string)            (* a field declared by the author *)
| MasterKey (model related_name : string)   (* MasterKey(model, related_name=...,
                                               editable=False, on_delete=CASCADE,
                                               null=True) *)
| LanguageCodeField                         (* CharField(max_length=15, db_index=True) *)
| MetaClass (meta : gmap string MetaValue)  (* type('Meta', (object,), meta) *)
| ModuleName (module : string).

Module TranslatedFields.

Record t := mk {
  meta : gmap string MetaValue;
  base_class : option string;
  fields : gmap string Attr;
}.

(** [TranslatedFields.__init__]; [fields] are the keyword arguments. *)
Definition __init__ (meta : option (gmap string MetaValue))
    (base_class : option string) (fields : gmap string Attr) : result t :=
  let forbidden : gset string :=
    list_to_set forbidden_translated_fields ∩ dom fields in
  if bool_decide (forbidden ≠ ∅) then
    Raise (ImproperlyConfigured_invalid_field forbidden)
  else
    Ok (mk (default ∅ meta) base_class fields).

Section synthesis.
(** [hvad_settings.TABLE_NAME_FORMAT % (db_table,)], from [hvad.settings]. *)
Context (TABLE_NAME_FORMAT : string → string).
(** The host's [ModelBase(name, bases, attrs)]: builds the model class. *)
Context (ModelBase :
  string → list TranslationsBase → gmap string Attr → TModel.t).

(** Returns the [Meta] options and the updated [model._meta]. *)
Definition _build_meta_class (self : t) (model_meta : Options.t)
    (tfields : gset string)
  : result (gmap string MetaValue * Options.t) :=
  let abstract := Options.abstract model_meta in
  let meta := meta self in
  let meta :=
    <["default_permissions" := MNames []]>
    (<["db_table" := default
         (MStr (TABLE_NAME_FORMAT (Options.db_table model_meta)))
         (meta !! "db_table")]>
    (<["app_label" := MStr (Options.app_label model_meta)]>
    (<["managed" := MBool (Options.managed model_meta)]>
    (<["db_tablespace" := MStr (Options.db_tablespace model_meta)]>
    (<["abstract" := MBool abstract]> meta))))) in
  (* Split fields in Meta.unique_together *)
  '(sconst, tconst) ←
    _split_together (Options.unique_together model_meta) tfields
      "unique_together";
  let model_meta := Options.set_unique_together sconst model_meta in
  let meta := <["unique_together" := MTogether tconst]> meta in
  let meta :=
    if negb abstract then
      <["unique_together" :=
          MTogether (tconst ++ [["language_code"; "master"]])]> meta
    else meta in
  (* Split fields in Meta.index_together *)
  '(sconst, tconst) ←
    _split_together (Options.index_together model_meta) tfields
      "index_together";
  let model_meta := Options.set_index_together sconst model_meta in
  let meta := <["index_together" := MTogether tconst]> meta in
  Ok (meta, model_meta).

(** Returns the translations model and the updated [model._meta]. *)
Definition create_translations_model (self : t) (model : PyClass)
    (related_name : string) : result (TModel.t * Options.t) :=
  let model_name := __name__ model +:+ "Translation" in
  '(translation_bases, translation_base_fields) ← _scan_model_bases model;
  let attrs := fields self in
  '(Meta, model_meta) ←
    _build_meta_class self (_meta model)
      (translation_base_fields ∪ dom (fields self) ∪ {["language_code"]});
  let attrs :=
    <["__module__" := ModuleName (__module__ model)]>
    (<["Meta" := MetaClass Meta]> attrs) in
  let attrs :=
    if negb (Options.abstract model_meta) then
      (* If this class is abstract, we must not contribute management
         fields *)
      let attrs :=
        <["master" := MasterKey (__name__ model) related_name]> attrs in
      if bool_decide ("language_code" ∉ dom attrs) then  (* allow overriding *)
        <["language_code" := LanguageCodeField]> attrs
      else attrs
    else attrs in
  (* Create the new model *)
  let translation_bases :=
    match base_class self with
    | Some b => BaseClass b :: translation_bases
    | None => translation_bases
    end in
  let translations_model := ModelBase model_name translation_bases attrs in
  let translations_model :=
    TModel.mk (TModel.name translations_model)
      (TModel.meta translations_model) (Some (__name__ model))
      (if negb (Options.abstract model_meta) then
         (* Abstract models do not have a DNE class *)
         [__name__ model +:+ ".DoesNotExist"; model_name +:+ ".DoesNotExist"]
       else TModel.DoesNotExist translations_model) in
  Ok (translations_model, model_meta).

(** Returns the updated [model._meta]. *)
Definition contribute_to_class (self : t) (model : PyClass) (name : string)
  : result Options.t :=
  if match Options.order_with_respect_to (_meta model) with
     | Some f => bool_decide (f ∈ dom (fields self))
     | None => false
     end then
    Raise (ImproperlyConfigured_order_wrt (Options.model_name (_meta model)))
  else if bool_decide (is_Some (Options.translations_model (_meta model)))
  then
    Raise (ImproperlyConfigured_twice (__name__ model))
  else
    '(translations_model, model_meta) ←
      create_translations_model self model name;
    let model_meta :=
      Options.set_translations_model translations_model model_meta in
    if negb (Options.abstract model_meta) then
      Ok (Options.set_translations_accessor name model_meta)
    else Ok model_meta.

End synthesis.
End TranslatedFields.

(** ** Instances *)

(** The [models.Model] part of an entity: what the host's
    [Model.__init__] was given, and [_state]. *)
Module Shared.
Record t := mk {
  args : list value;              (* positional values, one per concrete field *)
  kwargs : gmap string value;     (* keyword values *)
  adding : bool;                  (* _state.adding *)
  db : option string;             (* _state.db *)
}.
End Shared.

(** An instance of the translations model. *)
Module Translation.
Record t := mk {
  values : gmap string value;     (* the keyword values it was built with *)
  master : option Shared.t;       (* translation.master *)
  adding : bool;                  (* _state.adding: not written to storage yet *)
}.

(** [translations_model( **kwargs )]: a new, unsaved record. *)
Definition new (kwargs : gmap string value) : t := mk kwargs None true.

(** [translation.pk] *)
Definition pk (opts : TOptions.t) (tr : t) : value :=
  dict_get (values tr) (TOptions.pk_name opts).
End Translation.

(** An instance of a translatable model. *)
Module Entity.
Record t := mk {
  shared : Shared.t;
  cached_translation : option Translation.t;
}.
End Entity.

(** Modelled from the spec: [hvad.utils.get_cached_translation] is not in
    this module; the active translation is a per-instance cache slot owned
    by the entity, absent when no translation is attached. *)
Definition get_cached_translation (self : Entity.t) : option Translation.t :=
  Entity.cached_translation self.

(** Modelled from the spec: [hvad.utils.set_cached_translation] is not in
    this module; it replaces the content of the cache slot. *)
Definition set_cached_translation (self : Entity.t) (tr : Translation.t)
  : Entity.t :=
  Entity.mk (Entity.shared self) (Some tr).

(** [cls._meta.ordering] *)
Inductive Ordering :=
| OrderingSeq (entries : list string)     (* a list or tuple of names *)
| OrderingOther (v : value).              (* anything else *)

(** A prepared translatable model class, as its methods see it. *)
Module ModelClass.
Record t := mk {
  name : string;
  fields : list Field.t;                 (* cls._meta.fields *)
  concrete_fields : list Field.t;        (* cls._meta.concrete_fields *)
  ordering : Ordering;                   (* cls._meta.ordering *)
  translations_opts : TOptions.t;        (* cls._meta.translations_model._meta *)
  default_manager_is_TranslationManager : bool;
}.
End ModelClass.

(** ** TranslatableModel: lifecycle *)

Definition veto_names (translations_opts : TOptions.t) : list string :=
  ["pk"; "master"; "master_id"; TOptions.pk_name translations_opts].

(** One turn of the loop that splits names in shared/translated. *)
Definition is_shared_name (translations_opts : TOptions.t) (key : string)
  : bool :=
  if bool_decide (key ∈ veto_names translations_opts) then true
  else match TOptions.get_field translations_opts key with
       | None => true       (* except FieldDoesNotExist *)
       | Some _ => false
       end.

Definition split_kwarg (translations_opts : TOptions.t)
    (acc : gmap string value * gmap string value) (item : string * value)
  : gmap string value * gmap string value :=
  let '(skwargs, tkwargs) := acc in
  let '(key, value) := item in
  if bool_decide (key ∈ veto_names translations_opts) then
    (<[key := value]> skwargs, tkwargs)
  else match TOptions.get_field translations_opts key with
       | None => (<[key := value]> skwargs, tkwargs)
       | Some _ => (skwargs, <[key := value]> tkwargs)
       end.

(** The host's [models.Model.__init__], called with positional and
    keyword arguments: a new record
    holding what it was given; its own validation is not modelled. *)
Definition Model__init__ (args : list value) (kwargs : gmap string value)
  : Shared.t :=
  Shared.mk args kwargs true None.

(** [TranslatableModel.__init__], called with positional arguments [args]
    and keyword arguments [kwargs]; [get_language] is the result of the
    host's [get_language()]. *)
Definition __init__ (cls : ModelClass.t) (get_language : option string)
    (args : list value) (kwargs : gmap string value) : Entity.t :=
  let translations_opts := ModelClass.translations_opts cls in
  let '(skwargs, tkwargs) :=
    foldl (split_kwarg translations_opts) (∅, ∅) (map_to_list kwargs) in
  let self := Entity.mk (Model__init__ args skwargs) None in
  let language_code :=
    or_ (dict_get tkwargs "language_code")
        (from_option Str None_ get_language) in
  if bool_decide (language_code ≠ NoTranslation) then
    let tkwargs := <["language_code" := language_code]> tkwargs in
    set_cached_translation self (Translation.new tkwargs)
  else self.

(** The list comprehension of [from_db]: [values] is the reversed list,
    consumed by [values.pop()]. *)
Fixpoint from_db_values (concrete_fields : list Field.t)
    (field_names : list string) (values : list value)
  : result (list value) :=
  match concrete_fields with
  | [] => Ok []
  | f :: rest =>
      if bool_decide (Field.attname f ∈ field_names) then
        match pop values with
        | None => Raise IndexError_pop
        | Some (v, values) =>
            vs ← from_db_values rest field_names values; Ok (v :: vs)
        end
      else
        vs ← from_db_values rest field_names values; Ok (DEFERRED :: vs)
  end.

(** [TranslatableModel.from_db(cls, db, field_names, values)] *)
Definition from_db (cls : ModelClass.t) (get_language : option string)
    (db : string) (field_names : list string) (values : list value)
  : result Entity.t :=
  values ←
    (if bool_decide (length values ≠ length (ModelClass.concrete_fields cls))
     then
       (* Missing values are deferred and must be marked as such *)
       let values := reverse values in
       from_db_values (ModelClass.concrete_fields cls) field_names values
     else Ok values);
  let new := __init__ cls get_language values
               {["language_code" := NoTranslation]} in
  Ok (Entity.mk
        (Shared.mk (Shared.args (Entity.shared new))
                   (Shared.kwargs (Entity.shared new)) false (Some db))
        (Entity.cached_translation new)).

(** Keyword arguments of [save]. *)
Record SaveKwargs := mkSaveKwargs {
  update_fields : option (list string);   (* kwargs.get('update_fields') *)
  other : gmap string value;              (* force_insert, using, ... *)
}.

(** The loop that splits [update_fields] in shared/translated names. *)
Fixpoint split_update_fields (translations_opts : TOptions.t)
    (update_fields supdate tupdate : list string)
  : list string * list string :=
  match update_fields with
  | [] => (supdate, tupdate)
  | name :: rest =>
      if bool_decide (name ∈ veto_names translations_opts) then
        split_update_fields translations_opts rest (supdate ++ [name]) tupdate
      else match TOptions.get_field translations_opts name with
           | None =>
               split_update_fields translations_opts rest
                 (supdate ++ [name]) tupdate
           | Some _ =>
               split_update_fields translations_opts rest
                 supdate (tupdate ++ [name])
           end
  end.

(** A Python list is true when it is not empty. *)
Definition list_truthy {A} (l : list A) : bool :=
  match l with [] => false | _ => true end.

(** [update_fields is None or kwargs['update_fields']] *)
Definition none_or_truthy (original : option (list string))
    (kwargs : SaveKwargs) : bool :=
  match original with
  | None => true
  | Some _ => from_option list_truthy false (update_fields kwargs)
  end.

Section storage.
(** The two tables an entity is stored in. *)
Context {SharedTable TranslationsTable : Type}.

Record Database := mkDatabase {
  shared_table : SharedTable;
  translations_table : TranslationsTable;
}.

(** The host's [Model.save] on the shared model and on the translations
    model: each writes one record to its own table, or raises. *)
Context (Model_save :
  Shared.t → list value → SaveKwargs → SharedTable →
  result (Shared.t * SharedTable)).
Context (Translation_save :
  Translation.t → list value → SaveKwargs → TranslationsTable →
  result (Translation.t * TranslationsTable)).

(** [TranslatableModel.save], called with positional arguments [args] and
    keyword arguments [skwargs], inside [transaction.atomic]: an exception
    leaves the database as it was. *)
Definition save (cls : ModelClass.t) (self : Entity.t) (args : list value)
    (skwargs : SaveKwargs) (database : Database)
  : result (Entity.t * Database) :=
  let translations_opts := ModelClass.translations_opts cls in
  let translation := get_cached_translation self in
  let tkwargs := skwargs in
  (* split update_fields in shared/translated fields *)
  let original := update_fields skwargs in
  let '(skwargs, tkwargs) :=
    match original with
    | Some names =>
        let '(supdate, tupdate) :=
          split_update_fields translations_opts names [] [] in
        (mkSaveKwargs (Some supdate) (other skwargs),
         mkSaveKwargs (Some tupdate) (other tkwargs))
    | None => (skwargs, tkwargs)
    end in
  (* save share and translated model in a single transaction *)
  '(self, database) ←
    (if none_or_truthy original skwargs then
       '(shared, table) ←
         Model_save (Entity.shared self) args skwargs (shared_table database);
       Ok (Entity.mk shared (Entity.cached_translation self),
           mkDatabase table (translations_table database))
     else Ok (self, database));
  match translation with
  | Some translation =>
      if none_or_truthy original tkwargs then
        let tkwargs :=
          if bool_decide (Translation.pk translations_opts translation = None_)
             && from_option list_truthy false original
          then mkSaveKwargs None (other tkwargs)   (* allow new translations *)
          else tkwargs in
        let translation :=
          Translation.mk (Translation.values translation)
            (Some (Entity.shared self)) (Translation.adding translation) in
        '(translation, table) ←
          Translation_save translation args tkwargs
            (translations_table database);
        Ok (set_cached_translation self translation,
            mkDatabase (shared_table database) table)
      else Ok (self, database)
  | None => Ok (self, database)
  end.

(** [TranslatableModel.translate(self, language_code)].  Like [save] it is
    marked [alters_data]; it is given the database and hands it back. *)
Definition translate (self : Entity.t) (language_code : value)
    (database : Database) : result (Entity.t * Database) :=
  Ok (set_cached_translation self
        (Translation.new {["language_code" := language_code]}),
      database).

End storage.

(** ** TranslatableModel: checks *)

Inductive CheckMsg :=
| Msg_clash (field : string)
    (* "translated field '%s' clashes with untranslated field." *)
| Msg_manager (cls : string)
    (* "The default manager on a TranslatableModel must be ..." *)
| Msg_ordering_type
    (* "'ordering' must be a tuple or list." *)
| Msg_ordering_field (field : string).
    (* "'ordering' refers to the non-existent field '%s' --hvad." *)

(** [checks.Error(msg, hint=None, obj=cls, id=...)] *)
Record CheckError := Error {
  msg : CheckMsg;
  obj : string;
  id : string;
}.

#[export] Instance CheckMsg_eq_dec : EqDecision CheckMsg.
Proof. solve_decision. Defined.
#[export] Instance CheckError_eq_dec : EqDecision CheckError.
Proof. solve_decision. Defined.

Definition _check_shared_translated_clash (cls : ModelClass.t)
  : list CheckError :=
  let fields : gset string :=
    list_to_set (names_and_attnames (ModelClass.fields cls)) in
  let tfields : gset string :=
    list_to_set (names_and_attnames
      (filter (λ f, Field.name f ∉ ["id"; "master"])
         (TOptions.fields (ModelClass.translations_opts cls)))) in
  (λ field, Error (Msg_clash field) (ModelClass.name cls) "hvad.models.E01")
    <$> elements (tfields ∩ fields).

Definition _check_default_manager_translation_aware (cls : ModelClass.t)
  : list CheckError :=
  let errors := [] in
  if negb (ModelClass.default_manager_is_TranslationManager cls) then
    errors ++ [Error (Msg_manager (ModelClass.name cls)) (ModelClass.name cls)
                 "hvad.models.E02"]
  else errors.

(** [TranslatableModel.check]; [super_check] is what the host's
    [Model.check] returned. *)
Definition check (cls : ModelClass.t) (super_check : list CheckError)
  : list CheckError :=
  super_check ++ _check_shared_translated_clash cls
              ++ _check_default_manager_translation_aware cls.

(** [f.startswith('-')] *)
Definition startswith_minus (f : string) : bool := String.prefix "-" f.

(** [f[1:]] *)
Definition drop_first (f : string) : string :=
  match f with
  | EmptyString => EmptyString
  | String _ rest => rest
  end.

(** ['__' in f] *)
Fixpoint contains_dunder (f : string) : bool :=
  String.prefix "__" f ||
  match f with
  | EmptyString => false
  | String _ rest => contains_dunder rest
  end.

(** The three comprehensions that turn [ordering] into a set of names. *)
Definition ordering_names (ordering : list string) : gset string :=
  let fields := filter (λ f, f ≠ "?") ordering in
  let fields :=
    (λ f, if startswith_minus f then drop_first f else f) <$> fields in
  list_to_set
    (filter (λ f, (f ∉ ["_order"; "pk"]) ∧ contains_dunder f = false) fields).

Definition ordering_falsy (o : Ordering) : bool :=
  match o with
  | OrderingSeq entries => negb (list_truthy entries)
  | OrderingOther v => negb (truthy v)
  end.

Definition _check_ordering (cls : ModelClass.t) : list CheckError :=
  if ordering_falsy (ModelClass.ordering cls) then []
  else
    match ModelClass.ordering cls with
    | OrderingOther _ =>
        [Error Msg_ordering_type (ModelClass.name cls) "models.E014"]
    | OrderingSeq ordering =>
        let fields := ordering_names ordering in
        let valid_fields : gset string :=
          list_to_set (names_and_attnames (ModelClass.fields cls)) in
        let valid_tfields : gset string :=
          list_to_set (names_and_attnames
            (filter (λ f, Field.name f ∉ ["master"; "language_code"])
               (TOptions.fields (ModelClass.translations_opts cls)))) in
        (λ field, Error (Msg_ordering_field field) (ModelClass.name cls)
                    "models.E015")
          <$> elements (fields ∖ valid_fields ∖ valid_tfields)
    end.

(** ** Vocabulary of the specification: class hierarchies *)

(** [a] is a proper ancestor of [c]. *)
Inductive ancestor (a : PyClass) : PyClass → Prop :=
| ancestor_base n m meta bs :
    a ∈ bs → ancestor a (Class n m meta bs)
| ancestor_step n m meta bs b :
    b ∈ bs → ancestor a b → ancestor a (Class n m meta bs).

(** A concrete translatable model: a subclass of [TranslatableModel],
    other than [TranslatableModel] itself, that is not abstract. *)
Definition concrete_translatable (c : PyClass) : Prop :=
  match c with
  | TranslatableModel => False
  | Class _ _ meta _ =>
      issubclass_TranslatableModel c = true ∧ Options.abstract meta = false
  end.

(** A class the scan raises on when it is pushed on the stack: a concrete
    translatable model, or an abstract class without a translations model
    one of whose bases is such a class. *)
Inductive exposed : PyClass → Prop :=
| exposed_concrete n m meta bs :
    issubclass_TranslatableModel (Class n m meta bs) = true →
    Options.abstract meta = false →
    exposed (Class n m meta bs)
| exposed_through n m meta bs b :
    Options.abstract meta = true →
    Options.translations_model meta = None →
    b ∈ bs → exposed b →
    exposed (Class n m meta bs).

(** The hierarchy above [c] was built by this module: every abstract
    class above [c] that carries a translations model got it from
    [contribute_to_class], so the scan of its own bases did not raise. *)
Definition synthesized_above (c : PyClass) : Prop :=
  ∀ a, ancestor a c →
    match a with
    | TranslatableModel => True
    | Class _ _ meta _ =>
        Options.abstract meta = true →
        is_Some (Options.translations_model meta) →
        raises (_scan_model_bases a) = false
    end.

(** A declaration of translated fields that none of the four guards of
    the class construction rejects: no translated field is the
    [order_with_respect_to] of the model, the model has no translations
    model yet, the scan of its bases meets no exposed class, and no
    constraint mixes translated and untranslated fields. *)
Definition valid_declaration (self : TranslatedFields.t) (model : PyClass)
  : Prop :=
  (∀ f, Options.order_with_respect_to (_meta model) = Some f →
        f ∉ dom (TranslatedFields.fields self))
  ∧ Options.translations_model (_meta model) = None
  ∧ Forall (λ b, ¬ exposed b) (__bases__ model)
  ∧ (∀ bases inherited,
       _scan_model_bases model = Ok (bases, inherited) →
       let tfields : gset string :=
         inherited ∪ dom (TranslatedFields.fields self)
                   ∪ {["language_code"]} in
       Forall (λ c, ¬ mixed tfields c) (Options.unique_together (_meta model))
       ∧ Forall (λ c, ¬ mixed tfields c)
           (Options.index_together (_meta model))).

(** ** Vocabulary of the specification: keyword arguments *)

(** The keyword arguments of the shared namespace: identity and linkage
    names, and names that are not a field of the translations model. *)
Definition shared_kwargs (translations_opts : TOptions.t)
    (kwargs : gmap string value) : gmap string value :=
  filter (λ kv, is_shared_name translations_opts kv.1 = true) kwargs.

(** The keyword arguments of the translated namespace: all others. *)
Definition translated_kwargs (translations_opts : TOptions.t)
    (kwargs : gmap string value) : gmap string value :=
  filter (λ kv, is_shared_name translations_opts kv.1 = false) kwargs.

(** The ambient active language, as a Python value. *)
Definition ambient_language (get_language : option string) : value :=
  from_option Str None_ get_language.

(** ** Vocabulary of the specification: rehydration *)

(** The concrete fields whose column is among the loaded [field_names]. *)
Definition present (field_names : list string) (fields : list Field.t)
  : list Field.t :=
  filter (λ f, Field.attname f ∈ field_names) fields.

(** [rehydrated field_names fields values args]: [args] gives each field
    of [fields], in order, the next of the loaded [values] when its column
    was loaded and [DEFERRED] when it was not, and uses up [values]. *)
Inductive rehydrated (field_names : list string)
  : list Field.t → list value → list value → Prop :=
| rehydrated_nil :
    rehydrated field_names [] [] []
| rehydrated_present f fields v values args :
    Field.attname f ∈ field_names →
    rehydrated field_names fields values args →
    rehydrated field_names (f :: fields) (v :: values) (v :: args)
| rehydrated_deferred f fields values args :
    Field.attname f ∉ field_names →
    rehydrated field_names fields values args →
    rehydrated field_names (f :: fields) values (DEFERRED :: args).

(** ** Vocabulary of the specification: schema checks *)

(** [n] is the name or the storage-column name of one of [fields]. *)
Definition resolves (fields : list Field.t) (n : string) : Prop :=
  ∃ f, f ∈ fields ∧ (n = Field.name f ∨ n = Field.attname f).

(** [n] is the name or the storage-column name of a field of the
    translations model, the fields named in [excluded] aside. *)
Definition resolves_translated (excluded : list string) (cls : ModelClass.t)
    (n : string) : Prop :=
  resolves (filter (λ f, Field.name f ∉ excluded)
              (TOptions.fields (ModelClass.translations_opts cls))) n.

(** [n] names both a shared field and a translated field, identity and
    linkage aside. *)
Definition clashes (cls : ModelClass.t) (n : string) : Prop :=
  resolves_translated ["id"; "master"] cls n
  ∧ resolves (ModelClass.fields cls) n.

(** An ordering entry without its sort direction. *)
Definition strip_direction (entry : string) : string :=
  if startswith_minus entry then drop_first entry else entry.

(** [n] is an entry of the ordering, stripped of its sort direction, that
    is neither a special marker nor a lookup through a relation. *)
Definition ordered_by (entries : list string) (n : string) : Prop :=
  ∃ entry, entry ∈ entries ∧ entry ≠ "?" ∧ n = strip_direction entry
    ∧ (n ∉ ["_order"; "pk"]) ∧ contains_dunder n = false.

(** [n] is an entry of the ordering, as above, that resolves against
    neither the shared fields nor the translated fields, linkage and
    language code aside. *)
Definition unresolved (cls : ModelClass.t) (entries : list string)
    (n : string) : Prop :=
  ordered_by entries n
  ∧ ¬ resolves (ModelClass.fields cls) n
  ∧ ¬ resolves_translated ["master"; "language_code"] cls n.

(** The errors of a list that identify the field [n]. *)
Definition errors_about (m : string → CheckMsg) (n : string)
    (errors : list CheckError) : list CheckError :=
  filter (λ e, msg e = m n) errors.

(** ** Example declarations *)

Module Example.

Definition translation_fields : list Field.t :=
  [Field.mk "id" "id"; Field.mk "title" "title";
   Field.mk "language_code" "language_code"; Field.mk "master" "master_id"].

(** [get_field] of the host: by name or by attname. *)
Definition lookup_field (fields : list Field.t) (n : string)
  : option Field.t :=
  List.find (λ f, bool_decide (Field.name f = n)
                  || bool_decide (Field.attname f = n)) fields.

Definition translations_opts : TOptions.t :=
  TOptions.mk translation_fields "id" (lookup_field translation_fields).

Definition ArticleTranslation : TModel.t :=
  TModel.mk "ArticleTranslation" translations_opts (Some "Article")
    ["Article.DoesNotExist"; "ArticleTranslation.DoesNotExist"].

Definition options (model_name : string) (abstract : bool)
    (tm : option TModel.t) : Options.t :=
  Options.mk model_name abstract "" true "app" ("app_" +:+ model_name)
    None [] [] ∅ [] tm (if tm is Some _ then Some "translations" else None).

(** A concrete translatable model, and a model declared on top of it. *)
Definition Article : PyClass :=
  Class "Article" "app.models"
    (options "article" false (Some ArticleTranslation)) [TranslatableModel].

Definition SpecialArticle_meta : Options.t := options "specialarticle" false None.

Definition SpecialArticle : PyClass :=
  Class "SpecialArticle" "app.models" SpecialArticle_meta [Article].

Definition TABLE_NAME_FORMAT (db_table : string) : string :=
  db_table +:+ "_translation".

(** A stand-in for the host's [ModelBase]: the fields are the declared
    ones (the class-body entries [Meta] and [__module__] aside), with the
    automatic [id]. *)
Definition ModelBase (name : string) (bases : list TranslationsBase)
    (attrs : gmap string Attr) : TModel.t :=
  let fields :=
    Field.mk "id" "id" ::
    ((λ n, Field.mk n (if bool_decide (n = "master") then "master_id" else n))
       <$> filter (λ n, n ∉ ["Meta"; "__module__"]) (elements (dom attrs))) in
  TModel.mk name (TOptions.mk fields "id" (lookup_field fields)) None [].

Definition translated_fields : TranslatedFields.t :=
  TranslatedFields.mk ∅ None {["title" := FieldDef "CharField(max_length=250)"]}.

(** The prepared class [Article]: shared fields [id] and [slug],
    translated field [title]. *)
Definition shared_fields : list Field.t :=
  [Field.mk "id" "id"; Field.mk "slug" "slug"].

Definition Article_class : ModelClass.t :=
  ModelClass.mk "Article" shared_fields shared_fields (OrderingSeq [])
    translations_opts true.

(** An [Article] built with one shared and one translated argument. *)
Definition article : Entity.t :=
  __init__ Article_class (Some "en") []
    (<["slug" := Str "s"]> {["title" := Str "t"]}).

(** Stand-ins for the host's saves: a table is the list of the records
    written to it. *)
Definition Model_save (shared : Shared.t) (args : list value)
    (kwargs : SaveKwargs) (table : list Shared.t)
  : result (Shared.t * list Shared.t) :=
  Ok (shared, table ++ [shared]).

Definition Translation_save (translation : Translation.t) (args : list value)
    (kwargs : SaveKwargs) (table : list Translation.t)
  : result (Translation.t * list Translation.t) :=
  Ok (translation, table ++ [translation]).

(** A model that declares [title] both as a shared and as a translated
    field, ordered by a translated field, a missing field and a lookup
    through a relation. *)
Definition Clash_class : ModelClass.t :=
  ModelClass.mk "Clash"
    [Field.mk "id" "id"; Field.mk "title" "title"]
    [Field.mk "id" "id"; Field.mk "title" "title"]
    (OrderingSeq ["-title"; "nonexistent_field"; "author__name"])
    translations_opts true.

Definition Clash : PyClass :=
  Class "Clash" "app.models"
    (Options.set_fields [Field.mk "id" "id"; Field.mk "title" "title"]
       (options "clash" false None))
    [TranslatableModel].

(** An abstract translatable base with its own translated field, and a
    concrete model declared on top of it. *)
Definition AbstractBaseTranslation : TModel.t :=
  TModel.mk "AbstractBaseTranslation"
    (TOptions.mk [Field.mk "summary" "summary"] "id"
       (lookup_field [Field.mk "summary" "summary"]))
    (Some "AbstractBase") [].

Definition AbstractBase : PyClass :=
  Class "AbstractBase" "app.models"
    (options "abstractbase" true (Some AbstractBaseTranslation))
    [TranslatableModel].

Definition Story : PyClass :=
  Class "Story" "app.models"
    (Options.mk "story" false "" true "app" "app_story" None
       [["slug"]; ["title"; "language_code"]] [["summary"]] ∅ [] None None)
    [AbstractBase].

End Example.

(** ** Vocabulary of the specification: the inherited translations models *)

(** [exposed], as a test. *)
Fixpoint exposedb (c : PyClass) : bool :=
  match c with
  | TranslatableModel => false
  | Class _ _ meta bases =>
      existsb issubclass_TranslatableModel bases
      && (negb (Options.abstract meta)
          || (bool_decide (Options.translations_model meta = None)
              && existsb exposedb bases))
  end.

(** The translations models a class brings to the models declared on top
    of it: its own when it is translatable and has one, else those of its
    bases, depth first and in the order of the bases. *)
Fixpoint inherited_translations (c : PyClass) : list TModel.t :=
  match c with
  | TranslatableModel => []
  | Class _ _ meta bases =>
      if negb (existsb issubclass_TranslatableModel bases) then []
      else match Options.translations_model meta with
           | Some tm => [tm]
           | None => flat_map inherited_translations bases
           end
  end.

(** The names of the fields of some translations models. *)
Definition translations_field_names (tms : list TModel.t) : list string :=
  flat_map (λ tm, Field.name <$> TOptions.fields (TModel.meta tm)) tms.

(** ** More example declarations *)

Module Gallery.

(** A second abstract translatable base with a translations model, an
    abstract translatable class without one on top of both bases, a plain
    mixin, and a concrete model declared on top of these. *)
Definition CaptionedTranslation : TModel.t :=
  TModel.mk "CaptionedTranslation"
    (TOptions.mk [Field.mk "caption" "caption"] "id"
       (Example.lookup_field [Field.mk "caption" "caption"]))
    (Some "Captioned") [].

Definition Captioned : PyClass :=
  Class "Captioned" "app.models"
    (Example.options "captioned" true (Some CaptionedTranslation))
    [TranslatableModel].

Definition Mixin : PyClass :=
  Class "Mixin" "app.mixins" (Example.options "mixin" true None) [].

Definition Described : PyClass :=
  Class "Described" "app.models" (Example.options "described" true None)
    [Mixin; Example.AbstractBase; Captioned].

Definition Picture : PyClass :=
  Class "Picture" "app.models" (Example.options "picture" false None)
    [Described; Mixin; TranslatableModel].

End Gallery.

(** ** TranslatableModel: the other checks and validation *)

(** The loop of [_check_local_fields]: the names the translations model
    does not resolve, in [to_check]. *)
Fixpoint local_fields_to_check (translations_opts : TOptions.t)
    (fields to_check : list string) : list string :=
  match fields with
  | [] => to_check
  | field :: rest =>
      match TOptions.get_field translations_opts field with
      | None =>        (* except FieldDoesNotExist *)
          local_fields_to_check translations_opts rest (to_check ++ [field])
      | Some _ => local_fields_to_check translations_opts rest to_check
      end
  end.

(** [TranslatableModel._check_local_fields(cls, fields, option)];
    [super_check_local_fields] is the host's
    [Model._check_local_fields]. *)
Definition _check_local_fields (cls : ModelClass.t)
    (super_check_local_fields : list string → string → list CheckError)
    (fields : list string) (option : string) : list CheckError :=
  let to_check :=
    local_fields_to_check (ModelClass.translations_opts cls) fields [] in
  super_check_local_fields to_check option.

(** The management names [clean_fields] adds to the exclusions. *)
Definition clean_fields_excluded : list string :=
  ["id"; "master"; "master_id"; "language_code"].

Section validation.
(** What the host's validation raises, with whatever it carries. *)
Context {HostError : Type}.

(** Exceptions of the validation methods: those of the host, and the
    [TypeError] of [None + list]. *)
Inductive validation_exn :=
| Host (e : HostError)
| TypeError_NoneType_list.          (* exclude + [...] with exclude=None *)

(** A validation method returns nothing, or raises. *)
Inductive validated :=
| Returns
| Raises (e : validation_exn).

(** A call to a host method: [None] when it returns, its exception when
    it raises. *)
Definition host_call (outcome : option HostError) : validated :=
  match outcome with
  | None => Returns
  | Some e => Raises (Host e)
  end.

(** Sequencing of two statements. *)
Definition then_ (first : validated) (second : validated) : validated :=
  match first with
  | Returns => second
  | Raises e => Raises e
  end.

(** The host's [clean_fields] and [validate_unique], on the shared model
    and on the translations model; [exclude] is [None] or a list. *)
Context (Model_clean_fields Model_validate_unique :
  Shared.t → option (list string) → option HostError).
Context (Translation_clean_fields Translation_validate_unique :
  Translation.t → option (list string) → option HostError).

(** [TranslatableModel.clean_fields(self, exclude=None)] *)
Definition clean_fields (self : Entity.t) (exclude : option (list string))
  : validated :=
  then_ (host_call (Model_clean_fields (Entity.shared self) exclude))
    (let translation := get_cached_translation self in
     match translation with
     | Some translation =>
         match exclude with
         | Some exclude =>
             host_call (Translation_clean_fields translation
                          (Some (exclude ++ clean_fields_excluded)))
         | None => Raises TypeError_NoneType_list
         end
     | None => Returns
     end).

(** [TranslatableModel.validate_unique(self, exclude=None)] *)
Definition validate_unique (self : Entity.t) (exclude : option (list string))
  : validated :=
  then_ (host_call (Model_validate_unique (Entity.shared self) exclude))
    (let translation := get_cached_translation self in
     match translation with
     | Some translation =>
         host_call (Translation_validate_unique translation exclude)
     | None => Returns
     end).

End validation.

(** ** BaseTranslationModel *)

(** A unique check: the model class that declares it and the tuple of
    field names. *)
Definition UniqueCheck : Type := string * list string.

(** [BaseTranslationModel._get_unique_checks(self, exclude)];
    [self_class] is [self.__class__] and [super_checks] what the host's
    [Model._get_unique_checks] returned. *)
Definition _get_unique_checks {DateCheck : Type} (self_class : string)
    (super_checks : list UniqueCheck * list DateCheck)
  : list UniqueCheck * list DateCheck :=
  let '(unique_checks, date_checks) := super_checks in
  let unique_checks :=
    filter (λ check, check ≠ (self_class, ["language_code"; "master"]))
      unique_checks in
  (unique_checks, date_checks).

(** * Part II: properties *)

(** ** The embedding at work *)

Example split_together_example :
  _split_together [["slug"]; ["title"; "language_code"]; ["slug"; "id"]]
    {["title"; "language_code"]} "unique_together"
  = Ok ([["slug"]; ["slug"; "id"]], [["title"; "language_code"]]).
Proof. reflexivity. Qed.

Example split_together_mixed_example :
  _split_together [["slug"]; ["title"; "slug"]; ["id"; "title"]]
    {["title"; "language_code"]} "index_together"
  = Raise (ImproperlyConfigured_mixed "index_together" ["title"; "slug"]).
Proof. reflexivity. Qed.

Example scan_concrete_base_example :
  _scan_model_bases Example.SpecialArticle
  = Raise (TypeError_multi_table "article" "specialarticle").
Proof. reflexivity. Qed.

Example scan_abstract_base_example :
  _scan_model_bases Example.Story
  = Ok ([Inherited "AbstractBaseTranslation"; BaseTranslationModel],
        {["summary"]}).
Proof. reflexivity. Qed.

Example contribute_to_class_example :
  (λ meta, (Options.unique_together meta, Options.index_together meta,
            TModel.name <$> Options.translations_model meta,
            Options.translations_accessor meta))
  <$> (match TranslatedFields.contribute_to_class Example.TABLE_NAME_FORMAT
               Example.ModelBase Example.translated_fields Example.Story
               "translations" with
       | Ok meta => Some meta
       | Raise _ => None
       end)
  = Some ([["slug"]], [], Some "StoryTranslation", Some "translations").
Proof. reflexivity. Qed.

Example forbidden_field_example :
  TranslatedFields.__init__ None None
    (<["master" := FieldDef "CharField()"]> {["title" := FieldDef "CharField()"]})
  = Raise (ImproperlyConfigured_invalid_field {["master"]}).
Proof. reflexivity. Qed.

Example init_example :
  Example.article
  = Entity.mk (Shared.mk [] {["slug" := Str "s"]} true None)
      (Some (Translation.mk
               (<["language_code" := Str "en"]> {["title" := Str "t"]})
               None true)).
Proof. reflexivity. Qed.

Example from_db_example :
  from_db Example.Article_class (Some "en") "default" ["slug"] [Str "s"]
  = Ok (Entity.mk (Shared.mk [DEFERRED; Str "s"] ∅ false (Some "default"))
          None).
Proof. reflexivity. Qed.

Example from_db_too_few_values_example :
  from_db Example.Article_class (Some "en") "default" ["id"; "slug"] [Int 1]
  = Raise IndexError_pop.
Proof. reflexivity. Qed.

(** A full save writes both records, the translation with its master. *)
Example save_example :
  save Example.Model_save Example.Translation_save Example.Article_class
    Example.article [] (mkSaveKwargs None ∅) (mkDatabase [] [])
  = let shared := Entity.shared Example.article in
    let translation :=
      Translation.mk (<["language_code" := Str "en"]> {["title" := Str "t"]})
        (Some shared) true in
    Ok (Entity.mk shared (Some translation),
        mkDatabase [shared] [translation]).
Proof. reflexivity. Qed.

(** The translated part of [update_fields] alone writes the translation
    only; as the record is new, the restriction is dropped. *)
Example save_translated_update_fields_example :
  save Example.Model_save
    (λ translation args kwargs table,
       Ok (translation, table ++ [(translation, update_fields kwargs)]))
    Example.Article_class Example.article []
    (mkSaveKwargs (Some ["title"]) ∅) (mkDatabase [] [])
  = let shared := Entity.shared Example.article in
    let translation :=
      Translation.mk (<["language_code" := Str "en"]> {["title" := Str "t"]})
        (Some shared) true in
    Ok (Entity.mk shared (Some translation),
        mkDatabase [] [(translation, None)]).
Proof. reflexivity. Qed.

Example check_example :
  check Example.Clash_class []
  = [Error (Msg_clash "title") "Clash" "hvad.models.E01"].
Proof. reflexivity. Qed.

Example check_ordering_example :
  _check_ordering Example.Clash_class
  = [Error (Msg_ordering_field "nonexistent_field") "Clash" "models.E015"].
Proof. reflexivity. Qed.

Example check_ordering_type_example :
  _check_ordering
    (ModelClass.mk "Article" Example.shared_fields Example.shared_fields
       (OrderingOther (Str "slug")) Example.translations_opts true)
  = [Error Msg_ordering_type "Article" "models.E014"].
Proof. reflexivity. Qed.

(** ** The constraint partitioner *)

Section split_together.
Context (fields : gset string) (name : string).

Lemma all_in_spec c : all_in fields c = true ↔ all_translated fields c.
Proof.
  unfold all_in, all_translated. induction c as [|item c IH]; simpl.
  - split; [constructor | done].
  - rewrite andb_true_iff, IH, Forall_cons, bool_decide_eq_true. done.
Qed.

Lemma any_in_spec c : any_in fields c = false ↔ all_shared fields c.
Proof.
  unfold any_in, all_shared. induction c as [|item c IH]; simpl.
  - split; [constructor | done].
  - rewrite orb_false_iff, IH, Forall_cons, bool_decide_eq_false. done.
Qed.

(** Only the empty constraint is of both kinds. *)
Lemma translated_shared_excl c :
  all_translated fields c → all_shared fields c → c = [].
Proof.
  destruct c as [|item c]; [done|].
  intros Ht Hs. apply Forall_cons in Ht as [Hin _].
  apply Forall_cons in Hs as [Hout _]. done.
Qed.

Lemma not_mixed_cases c :
  ¬ mixed fields c ↔ all_translated fields c ∨ all_shared fields c.
Proof.
  unfold mixed. destruct (decide (all_translated fields c)),
    (decide (all_shared fields c)); tauto.
Qed.

(** What the shared output holds: the constraints that are not wholly
    translated, which among unmixed ones are the non-empty shared ones. *)
Lemma not_translated_shared c :
  ¬ mixed fields c →
  ¬ all_translated fields c ↔ c ≠ [] ∧ all_shared fields c.
Proof.
  intros Hc. apply not_mixed_cases in Hc. split.
  - intros Hnt. destruct Hc as [?|Hs]; [done|]. split; [|done].
    intros ->. apply Hnt. constructor.
  - intros [Hne Hs] Ht. by apply Hne, translated_shared_excl.
Qed.

(** The loop appends to its accumulators the two filtered sublists of the
    constraints, as long as none is mixed. *)
Lemma _split_together_loop_ok cs : ∀ sconst tconst,
  Forall (λ c, ¬ mixed fields c) cs →
  _split_together_loop cs fields name sconst tconst =
    Ok (sconst ++ filter (λ c, ¬ all_translated fields c) cs,
        tconst ++ filter (all_translated fields) cs).
Proof.
  induction cs as [|c cs IH]; intros sconst tconst Hcs; simpl.
  - by rewrite !app_nil_r.
  - apply Forall_cons in Hcs as [Hc Hcs].
    destruct (all_in fields c) eqn:Hall.
    + apply all_in_spec in Hall. rewrite IH by done.
      rewrite filter_cons_False by tauto.
      rewrite filter_cons_True by done.
      by rewrite <- app_assoc.
    + assert (¬ all_translated fields c) as Hnt.
      { rewrite <- all_in_spec. congruence. }
      apply not_mixed_cases in Hc as [?|Hs]; [done|].
      apply any_in_spec in Hs. rewrite Hs. simpl.
      rewrite IH by done.
      rewrite filter_cons_True by done.
      rewrite filter_cons_False by done.
      by rewrite <- app_assoc.
Qed.

(** It stops at the first mixed constraint. *)
Lemma _split_together_loop_raise pre c post : ∀ sconst tconst,
  Forall (λ c, ¬ mixed fields c) pre → mixed fields c →
  _split_together_loop (pre ++ c :: post) fields name sconst tconst =
    Raise (ImproperlyConfigured_mixed name c).
Proof.
  induction pre as [|d pre IH]; intros sconst tconst Hpre [Hnt Hns]; simpl.
  - destruct (all_in fields c) eqn:Hall.
    { apply all_in_spec in Hall. done. }
    destruct (any_in fields c) eqn:Hany; [done|].
    apply any_in_spec in Hany. done.
  - apply Forall_cons in Hpre as [Hd Hpre].
    destruct (all_in fields d) eqn:Hall; [by apply IH|].
    apply not_mixed_cases in Hd as [Ht|Hs].
    { apply all_in_spec in Ht. congruence. }
    apply any_in_spec in Hs. rewrite Hs. simpl. by apply IH.
Qed.

(** Either no constraint is mixed, or there is a first mixed one. *)
Lemma first_mixed (cs : list constraint) :
  Forall (λ c, ¬ mixed fields c) cs ∨
  ∃ pre c post, cs = pre ++ c :: post ∧
    Forall (λ c, ¬ mixed fields c) pre ∧ mixed fields c.
Proof.
  induction cs as [|c cs [IH|(pre & d & post & -> & Hpre & Hd)]].
  - left. constructor.
  - destruct (decide (mixed fields c)) as [Hc|Hc].
    + right. exists [], c, cs. split_and!; [done|constructor|done].
    + left. by constructor.
  - destruct (decide (mixed fields c)) as [Hc|Hc].
    + right. exists [], c, (pre ++ d :: post).
      split_and!; [done|constructor|done].
    + right. exists (c :: pre), d, post.
      split_and!; [done|by constructor|done].
Qed.

Lemma filter_split_perm (cs : list constraint) :
  filter (λ c, ¬ all_translated fields c) cs
    ++ filter (all_translated fields) cs ≡ₚ cs.
Proof.
  induction cs as [|c cs IH]; [done|].
  destruct (decide (all_translated fields c)).
  - rewrite filter_cons_False by tauto. rewrite filter_cons_True by done.
    rewrite <- Permutation_middle. by f_equiv.
  - rewrite filter_cons_True by done. rewrite filter_cons_False by done.
    simpl. by f_equiv.
Qed.

End split_together.

(** C1, as amended.  For every sequence of constraints and every set of
    translated field names, [_split_together] either raises
    [ImproperlyConfigured] naming the first constraint that mixes
    translated and untranslated fields, or, when no constraint is mixed,
    returns two sequences such that: the translated output is the input
    filtered to the constraints whose fields are all translated (the empty
    constraint among them); the shared output is the input filtered to the
    other constraints, which are exactly the non-empty constraints whose
    fields are all untranslated; both keep the input order; together they
    are a permutation of the input, and no constraint is in both. *)
Theorem split_together_partition (constraints : list constraint)
    (fields : gset string) (name : string) :
  match _split_together constraints fields name with
  | Raise e =>
      ∃ pre c post, constraints = pre ++ c :: post
        ∧ Forall (λ c, ¬ mixed fields c) pre ∧ mixed fields c
        ∧ e = ImproperlyConfigured_mixed name c
  | Ok (sconst, tconst) =>
      Forall (λ c, ¬ mixed fields c) constraints
      ∧ tconst = filter (all_translated fields) constraints
      ∧ sconst = filter (λ c, ¬ all_translated fields c) constraints
      ∧ (∀ c, c ∈ tconst ↔ c ∈ constraints ∧ all_translated fields c)
      ∧ (∀ c, c ∈ sconst ↔ c ∈ constraints ∧ c ≠ [] ∧ all_shared fields c)
      ∧ sconst `sublist_of` constraints
      ∧ tconst `sublist_of` constraints
      ∧ sconst ++ tconst ≡ₚ constraints
      ∧ (∀ c, c ∈ sconst → c ∉ tconst)
  end.
Proof.
  unfold _split_together.
  destruct (first_mixed fields constraints)
    as [Hok|(pre & c & post & -> & Hpre & Hc)].
  - rewrite (_split_together_loop_ok fields name) by done. simpl.
    split_and!; try done.
    + intros c. rewrite list_elem_of_filter. tauto.
    + intros c. rewrite list_elem_of_filter. split.
      * intros [Hnt Hin]. split; [done|].
        apply not_translated_shared; [|done].
        by eapply (proj1 (Forall_forall _ _) Hok).
      * intros (Hin & Hne & Hs). split; [|done].
        apply not_translated_shared; [|done].
        by eapply (proj1 (Forall_forall _ _) Hok).
    + apply sublist_filter.
    + apply sublist_filter.
    + apply filter_split_perm.
    + intros c. rewrite !list_elem_of_filter. tauto.
  - rewrite (_split_together_loop_raise fields name) by done.
    by exists pre, c, post.
Qed.

(** C1, as stated, fails on the empty constraint: its fields are all
    untranslated (it has none), yet it is put in the translated output
    and not in the shared one. *)
Lemma split_together_empty_constraint :
  ∃ sconst tconst,
    _split_together [[]] {["title"]} "unique_together" = Ok (sconst, tconst)
    ∧ [] ∈ [[] : constraint]
    ∧ all_shared {["title"]} []
    ∧ ([] ∉ sconst)
    ∧ [] ∈ tconst.
Proof.
  exists [], [[]]. split_and!.
  - reflexivity.
  - apply list_elem_of_here.
  - constructor.
  - apply not_elem_of_nil.
  - apply list_elem_of_here.
Qed.

(** ** The scan of the bases *)

(** The loop, unfolded once. *)
Lemma scan_loop_step model_name scan_bases bases fields :
  _scan_model_bases_loop model_name scan_bases bases fields =
  match pop scan_bases with
  | None => Ok (bases, fields)
  | Some (TranslatableModel, rest) =>
      _scan_model_bases_loop model_name rest bases fields
  | Some (Class n m meta bs, rest) =>
      if negb (issubclass_TranslatableModel (Class n m meta bs)) then
        _scan_model_bases_loop model_name rest bases fields
      else if negb (Options.abstract meta) then
        Raise (TypeError_multi_table (Options.model_name meta) model_name)
      else
        match Options.translations_model meta with
        | Some tm =>
            _scan_model_bases_loop model_name rest
              (bases ++ [Inherited (TModel.name tm)])
              (fields ∪ list_to_set
                 (Field.name <$> TOptions.fields (TModel.meta tm)))
        | None =>
            _scan_model_bases_loop model_name (rest ++ reverse bs)
              bases fields
        end
  end.
Proof.
  funelim (_scan_model_bases_loop model_name scan_bases bases fields);
    match goal with e : pop _ = _ |- _ => rewrite e end; reflexivity.
Qed.

Lemma scan_loop_snoc model_name rest top bases fields :
  _scan_model_bases_loop model_name (rest ++ [top]) bases fields =
  match top with
  | TranslatableModel =>
      _scan_model_bases_loop model_name rest bases fields
  | Class n m meta bs =>
      if negb (issubclass_TranslatableModel (Class n m meta bs)) then
        _scan_model_bases_loop model_name rest bases fields
      else if negb (Options.abstract meta) then
        Raise (TypeError_multi_table (Options.model_name meta) model_name)
      else
        match Options.translations_model meta with
        | Some tm =>
            _scan_model_bases_loop model_name rest
              (bases ++ [Inherited (TModel.name tm)])
              (fields ∪ list_to_set
                 (Field.name <$> TOptions.fields (TModel.meta tm)))
        | None =>
            _scan_model_bases_loop model_name (rest ++ reverse bs)
              bases fields
        end
  end.
Proof. rewrite scan_loop_step, pop_snoc. reflexivity. Qed.

Lemma exposed_issubclass c : exposed c → issubclass_TranslatableModel c = true.
Proof.
  induction 1 as [|n m meta bs b _ _ Hb _ IH]; [done|].
  simpl. apply existsb_exists. exists b. split; [|done].
  by apply list_elem_of_In.
Qed.

Lemma ancestor_issubclass a c :
  ancestor a c → issubclass_TranslatableModel a = true →
  issubclass_TranslatableModel c = true.
Proof.
  induction 1 as [n m meta bs Ha|n m meta bs b Hb _ IH]; intros Hsub; simpl;
    apply existsb_exists.
  - exists a. split; [by apply list_elem_of_In|done].
  - exists b. split; [by apply list_elem_of_In|by apply IH].
Qed.

(** The loop raises as soon as its stack holds an exposed class. *)
Lemma scan_loop_exposed model_name : ∀ scan_bases bases fields,
  Exists exposed scan_bases →
  ∃ base_name,
    _scan_model_bases_loop model_name scan_bases bases fields =
      Raise (TypeError_multi_table base_name model_name).
Proof.
  (* recursion on the size of the stack *)
  enough (∀ k scan_bases, stack_size scan_bases = k →
    (∀ sb, stack_size sb < k → ∀ bases fields, Exists exposed sb →
       ∃ base_name, _scan_model_bases_loop model_name sb bases fields =
         Raise (TypeError_multi_table base_name model_name)) →
    ∀ bases fields, Exists exposed scan_bases →
    ∃ base_name,
      _scan_model_bases_loop model_name scan_bases bases fields =
        Raise (TypeError_multi_table base_name model_name)) as Hstep.
  { intros scan_bases. remember (stack_size scan_bases) as k eqn:Hk.
    revert scan_bases Hk. induction (lt_wf k) as [k _ IH]. intros sb Hk.
    eapply Hstep; [done|]. intros sb' Hlt. by eapply IH. }
  clear. intros k scan_bases Hk IH bases fields Hex.
  destruct (pop scan_bases) as [[top rest]|] eqn:Hpop.
  2:{ apply pop_None in Hpop as ->. by apply Exists_nil in Hex. }
  apply pop_Some in Hpop as ->.
  rewrite scan_loop_snoc.
  assert (stack_size rest < k) as Hrest_lt.
  { rewrite <- Hk, stack_size_app. unfold stack_size at 3. simpl.
    destruct top; simpl; lia. }
  assert (∀ n m meta bs, top = Class n m meta bs →
            stack_size (rest ++ reverse bs) < k) as Hbases_lt.
  { intros n m meta bs ->. rewrite <- Hk, !stack_size_app, stack_size_reverse.
    unfold stack_size. simpl. lia. }
  apply Exists_app in Hex as [Hrest|Htop].
  - (* an exposed class deeper in the stack *)
    destruct top as [|n m meta bs]; [by apply IH|].
    destruct (negb (issubclass_TranslatableModel (Class n m meta bs)));
      [by apply IH|].
    destruct (negb (Options.abstract meta)); [by eexists|].
    destruct (Options.translations_model meta); [by apply IH|].
    apply IH; [by eapply Hbases_lt|]. apply Exists_app. by left.
  - (* the top of the stack is exposed *)
    apply Exists_cons in Htop as [Htop|Hnil]; [|by apply Exists_nil in Hnil].
    pose proof (exposed_issubclass _ Htop) as Hsub.
    inversion Htop as [n m meta bs _ Hconc|n m meta bs b Habs Htm Hb Hexp];
      subst top; rewrite Hsub; simpl.
    + rewrite Hconc. simpl. by eexists.
    + rewrite Habs, Htm. simpl. apply IH; [by eapply Hbases_lt|].
      apply Exists_app. right. apply Exists_exists. exists b.
        split; [|done]. by apply elem_of_reverse.
Qed.

(** The loop returns when its stack holds no exposed class. *)
Lemma scan_loop_unexposed model_name : ∀ scan_bases bases fields,
  Forall (λ b, ¬ exposed b) scan_bases →
  ∃ r, _scan_model_bases_loop model_name scan_bases bases fields = Ok r.
Proof.
  intros scan_bases. remember (stack_size scan_bases) as k eqn:Hk.
  revert scan_bases Hk. induction (lt_wf k) as [k _ IH].
  intros scan_bases Hk bases fields Hall.
  destruct (pop scan_bases) as [[top rest]|] eqn:Hpop.
  2:{ rewrite scan_loop_step, Hpop. by eexists. }
  apply pop_Some in Hpop as ->.
  rewrite scan_loop_snoc.
  apply Forall_app in Hall as [Hrest Htop].
  apply Forall_cons in Htop as [Htop _].
  assert (stack_size rest < k) as Hrest_lt.
  { rewrite Hk, stack_size_app. unfold stack_size at 3. simpl.
    destruct top; simpl; lia. }
  destruct top as [|n m meta bs]; [by eapply IH|].
  destruct (issubclass_TranslatableModel (Class n m meta bs)) eqn:Hsub;
    cbn [negb]; [|by eapply IH].
  destruct (Options.abstract meta) eqn:Habs; cbn [negb].
  2:{ exfalso. apply Htop. by apply exposed_concrete. }
  destruct (Options.translations_model meta) eqn:Htm; [by eapply IH|].
  eapply IH; [|done|].
  - rewrite Hk, !stack_size_app, stack_size_reverse.
    unfold stack_size. simpl. lia.
  - apply Forall_app. split; [done|].
    apply Forall_forall. intros b Hb Hexp. apply Htop.
    eapply exposed_through; [done..| |done]. by apply elem_of_reverse.
Qed.

Lemma synthesized_above_base b n m meta bs :
  b ∈ bs → synthesized_above (Class n m meta bs) → synthesized_above b.
Proof. intros Hb Hc a Ha. apply Hc. by eapply ancestor_step. Qed.

(** In a hierarchy built by this module, a concrete translatable ancestor
    shows among the direct bases as an exposed class: no abstract class
    with a translations model can hide it, since its own scan would have
    raised. *)
Lemma ancestor_exposed a c :
  ancestor a c → synthesized_above c → concrete_translatable a →
  match c with
  | TranslatableModel => False
  | Class _ _ _ bs => Exists exposed bs
  end.
Proof.
  induction 1 as [n m meta bs Ha|n m meta bs b Hb Hanc IH]; intros Hsyn Hconc.
  - apply Exists_exists. exists a. split; [done|].
    destruct a as [|na ma metaa bsa]; [done|].
    destruct Hconc as [Hsub Habs]. by apply exposed_concrete.
  - pose proof (synthesized_above_base _ _ _ _ _ Hb Hsyn) as Hsynb.
    specialize (IH Hsynb Hconc).
    destruct b as [|nb mb metab bsb]; [done|].
    apply Exists_exists. exists (Class nb mb metab bsb). split; [done|].
    assert (issubclass_TranslatableModel (Class nb mb metab bsb) = true)
      as Hsub.
    { eapply ancestor_issubclass; [done|].
      destruct a; [done|]. by destruct Hconc. }
    destruct (Options.abstract metab) eqn:Habs;
      [|by apply exposed_concrete].
    destruct (Options.translations_model metab) as [tm|] eqn:Htm.
    + (* an abstract base with a translations model: its scan raised *)
      exfalso.
      assert (raises (_scan_model_bases (Class nb mb metab bsb)) = false)
        as Hscan.
      { apply (Hsyn (Class nb mb metab bsb)); [by apply ancestor_base|done|].
        rewrite Htm. by eexists. }
      apply Exists_exists in IH as (x & Hx & Hexp).
      destruct (scan_loop_exposed (Options.model_name metab)
                  (reverse bsb) [] ∅) as [bn Hbn].
      { apply Exists_exists. exists x. split; [|done].
        by apply elem_of_reverse. }
      unfold _scan_model_bases in Hscan. cbn [_meta __bases__] in Hscan.
      rewrite Hbn in Hscan. done.
    + apply Exists_exists in IH as (x & Hx & Hexp).
      by eapply exposed_through.
Qed.

(** C8.  Schema synthesis for a model that has a concrete translatable
    ancestor raises the [TypeError] "Multi-table inheritance of
    translatable models is not supported": [_scan_model_bases] raises it,
    so [create_translations_model] raises it, and [contribute_to_class],
    which runs while the class is being defined, raises.  The hierarchy
    above the model is one this module built ([synthesized_above]). *)
Theorem concrete_translatable_ancestor_rejected
    (TABLE_NAME_FORMAT : string → string)
    (ModelBase : string → list TranslationsBase → gmap string Attr → TModel.t)
    (self : TranslatedFields.t) (related_name : string)
    (n m : string) (meta : Options.t) (bs : list PyClass) (a : PyClass) :
  let model := Class n m meta bs in
  synthesized_above model →
  ancestor a model →
  concrete_translatable a →
  (∃ base_name,
     _scan_model_bases model =
       Raise (TypeError_multi_table base_name (Options.model_name meta)))
  ∧ (∃ base_name,
       TranslatedFields.create_translations_model TABLE_NAME_FORMAT ModelBase
         self model related_name =
       Raise (TypeError_multi_table base_name (Options.model_name meta)))
  ∧ raises (TranslatedFields.contribute_to_class TABLE_NAME_FORMAT ModelBase
              self model related_name) = true.
Proof.
  intros model Hsyn Hanc Hconc.
  pose proof (ancestor_exposed _ _ Hanc Hsyn Hconc) as Hexp. simpl in Hexp.
  destruct (scan_loop_exposed (Options.model_name meta) (reverse bs) [] ∅)
    as [bn Hbn].
  { apply Exists_exists in Hexp as (x & Hx & Hexp).
    apply Exists_exists. exists x. split; [|done]. by apply elem_of_reverse. }
  assert (_scan_model_bases model =
            Raise (TypeError_multi_table bn (Options.model_name meta)))
    as Hscan.
  { unfold _scan_model_bases, model. cbn [_meta __bases__].
    by rewrite Hbn. }
  assert (TranslatedFields.create_translations_model TABLE_NAME_FORMAT
            ModelBase self model related_name =
          Raise (TypeError_multi_table bn (Options.model_name meta)))
    as Hcreate.
  { unfold TranslatedFields.create_translations_model. by rewrite Hscan. }
  split_and!; [by exists bn|by exists bn|].
  unfold TranslatedFields.contribute_to_class.
  destruct (match Options.order_with_respect_to (_meta model) with
            | Some f => _ | None => _ end); [done|].
  destruct (bool_decide _); [done|].
  by rewrite Hcreate.
Qed.

Lemma concrete_translatable_ancestor_rejected_witness :
  synthesized_above Example.SpecialArticle
  ∧ ancestor Example.Article Example.SpecialArticle
  ∧ concrete_translatable Example.Article
  ∧ ∃ base_name,
      _scan_model_bases Example.SpecialArticle =
        Raise (TypeError_multi_table base_name "specialarticle").
Proof.
  assert (synthesized_above Example.SpecialArticle) as Hsyn.
  { intros a Ha. inversion Ha as [n m meta bs Hin|n m meta bs b Hin Hanc];
      subst.
    - apply list_elem_of_singleton in Hin as ->. simpl. done.
    - apply list_elem_of_singleton in Hin as ->.
      inversion Hanc as [n m meta bs Hin|n m meta bs b Hin Hanc']; subst.
      + apply list_elem_of_singleton in Hin as ->. done.
      + apply list_elem_of_singleton in Hin as ->. inversion Hanc'. }
  assert (ancestor Example.Article Example.SpecialArticle) as Hanc.
  { apply ancestor_base. apply list_elem_of_singleton. done. }
  assert (concrete_translatable Example.Article) as Hconc.
  { split; reflexivity. }
  split_and!; [done..|].
  exact (proj1 (concrete_translatable_ancestor_rejected
    Example.TABLE_NAME_FORMAT Example.ModelBase Example.translated_fields
    "translations" "SpecialArticle" "app.models" Example.SpecialArticle_meta
    [Example.Article] Example.Article Hsyn Hanc Hconc)).
Defined.

(** ** Construction *)

Section construction.
Context (cls : ModelClass.t).
Let opts := ModelClass.translations_opts cls.

Lemma split_kwarg_shared skwargs tkwargs key v :
  is_shared_name opts key = true →
  split_kwarg opts (skwargs, tkwargs) (key, v) =
    (<[key := v]> skwargs, tkwargs).
Proof.
  unfold is_shared_name, split_kwarg.
  destruct (bool_decide (key ∈ veto_names opts)); [done|].
  by destruct (TOptions.get_field opts key).
Qed.

Lemma split_kwarg_translated skwargs tkwargs key v :
  is_shared_name opts key = false →
  split_kwarg opts (skwargs, tkwargs) (key, v) =
    (skwargs, <[key := v]> tkwargs).
Proof.
  unfold is_shared_name, split_kwarg.
  destruct (bool_decide (key ∈ veto_names opts)); [done|].
  by destruct (TOptions.get_field opts key).
Qed.

(** The loop over the items of a dictionary: each key is met once, so the
    two accumulators receive the two filtered parts of the dictionary. *)
Lemma split_kwargs_items (items : list (string * value)) :
  ∀ skwargs tkwargs, NoDup items.*1 →
  foldl (split_kwarg opts) (skwargs, tkwargs) items =
    (shared_kwargs opts (list_to_map items) ∪ skwargs,
     translated_kwargs opts (list_to_map items) ∪ tkwargs).
Proof.
  unfold shared_kwargs, translated_kwargs.
  induction items as [|[key v] items IH]; intros skwargs tkwargs Hnd.
  - simpl. by rewrite !map_filter_empty, !(left_id_L ∅ (∪)).
  - rewrite list_to_map_cons. cbn [foldl]. rewrite fmap_cons in Hnd.
    apply NoDup_cons in Hnd as [Hkey Hnd].
    assert ((list_to_map items : gmap string value) !! key = None) as Hnone.
    { by apply not_elem_of_list_to_map_1. }
    destruct (is_shared_name opts key) eqn:Hs.
    + rewrite split_kwarg_shared by done. rewrite IH by done. f_equal.
      * rewrite map_filter_insert_True by done.
        rewrite <- insert_union_l. rewrite <- insert_union_r; [done|].
        by apply map_lookup_filter_None_2; left.
      * rewrite map_filter_insert_not; [done|]. simpl. intros _. congruence.
    + rewrite split_kwarg_translated by done. rewrite IH by done. f_equal.
      * rewrite map_filter_insert_not; [done|]. simpl. intros _. congruence.
      * rewrite map_filter_insert_True by done.
        rewrite <- insert_union_l. rewrite <- insert_union_r; [done|].
        by apply map_lookup_filter_None_2; left.
Qed.

Lemma split_kwargs_dict (kwargs : gmap string value) :
  foldl (split_kwarg opts) (∅, ∅) (map_to_list kwargs) =
    (shared_kwargs opts kwargs, translated_kwargs opts kwargs).
Proof.
  rewrite split_kwargs_items by apply NoDup_fst_map_to_list.
  by rewrite list_to_map_to_list, !(right_id_L ∅ (∪)).
Qed.

(** [__init__] in closed form. *)
Lemma __init___closed get_language args kwargs :
  __init__ cls get_language args kwargs =
    let tkwargs := translated_kwargs opts kwargs in
    let language_code :=
      or_ (dict_get tkwargs "language_code") (ambient_language get_language) in
    Entity.mk (Model__init__ args (shared_kwargs opts kwargs))
      (if bool_decide (language_code ≠ NoTranslation) then
         Some (Translation.new (<["language_code" := language_code]> tkwargs))
       else None).
Proof.
  unfold __init__. fold opts. rewrite split_kwargs_dict. simpl.
  fold (ambient_language get_language).
  by destruct (bool_decide _).
Qed.

Lemma ambient_language_not_sentinel get_language :
  ambient_language get_language ≠ NoTranslation.
Proof. by destruct get_language. Qed.

Lemma ambient_language_or get_language v :
  truthy v = false → or_ v (ambient_language get_language) = ambient_language get_language.
Proof. unfold or_. by intros ->. Qed.

End construction.

(** C2, as amended.  [__init__] hands the positional arguments and every
    keyword argument whose name is an identity or linkage name, or is not
    a field of the translations model, to the shared record, and no other.
    The language code is the [language_code] keyword argument when it is
    given in the translated namespace and is true, else the ambient active
    language.  Unless that language code is the [NoTranslation] sentinel,
    in which case no translation is attached, a new unsaved translation
    record is attached that holds the language code and every other
    keyword argument of the translated namespace. *)
Theorem init_splits_kwargs (cls : ModelClass.t) (get_language : option string)
    (args : list value) (kwargs : gmap string value) :
  let opts := ModelClass.translations_opts cls in
  let self := __init__ cls get_language args kwargs in
  let explicit :=
    if is_shared_name opts "language_code" then None_
    else dict_get kwargs "language_code" in
  let language_code :=
    if truthy explicit then explicit else ambient_language get_language in
  Shared.args (Entity.shared self) = args
  ∧ (∀ key, Shared.kwargs (Entity.shared self) !! key =
            if is_shared_name opts key then kwargs !! key else None)
  ∧ match Entity.cached_translation self with
    | None => language_code = NoTranslation
    | Some translation =>
        language_code ≠ NoTranslation
        ∧ Translation.values translation !! "language_code"
            = Some language_code
        ∧ (∀ key, key ≠ "language_code" →
             Translation.values translation !! key =
             if is_shared_name opts key then None else kwargs !! key)
        ∧ Translation.adding translation = true
        ∧ Translation.master translation = None
        ∧ (TOptions.pk_name opts ≠ "language_code" →
           Translation.pk opts translation = None_)
    end.
Proof.
  intros opts self explicit language_code.
  assert (∀ key, shared_kwargs opts kwargs !! key =
                 if is_shared_name opts key then kwargs !! key else None)
    as Hshared.
  { intros key. unfold shared_kwargs.
    destruct (is_shared_name opts key) eqn:Hs.
    - destruct (kwargs !! key) as [v|] eqn:Hk.
      + by apply map_lookup_filter_Some.
      + apply map_lookup_filter_None. by left.
    - apply map_lookup_filter_None. right. simpl. intros; congruence. }
  assert (∀ key, translated_kwargs opts kwargs !! key =
                 if is_shared_name opts key then None else kwargs !! key)
    as Htrans.
  { intros key. unfold translated_kwargs.
    destruct (is_shared_name opts key) eqn:Hs.
    - apply map_lookup_filter_None. right. simpl. intros; congruence.
    - destruct (kwargs !! key) as [v|] eqn:Hk.
      + by apply map_lookup_filter_Some.
      + apply map_lookup_filter_None. by left. }
  assert (dict_get (translated_kwargs opts kwargs) "language_code" = explicit)
    as Hexplicit.
  { unfold dict_get, explicit. rewrite Htrans.
    by destruct (is_shared_name opts "language_code"). }
  unfold self. rewrite __init___closed. fold opts. cbn zeta.
  rewrite Hexplicit. fold (or_ explicit (ambient_language get_language)).
  unfold or_. fold language_code. simpl.
  split_and!; [done|done|].
  case_bool_decide as Hlc.
  - split_and!; try done.
    + apply lookup_insert_eq.
    + intros key Hkey. simpl. rewrite lookup_insert_ne by done. apply Htrans.
    + intros Hpk. unfold Translation.pk, dict_get. simpl.
      rewrite lookup_insert_ne by done. rewrite Htrans.
      assert (is_shared_name opts (TOptions.pk_name opts) = true) as ->;
        [|done].
      unfold is_shared_name. rewrite bool_decide_eq_true_2; [done|].
      unfold veto_names. set_solver.
  - by destruct (decide (language_code = NoTranslation)).
Qed.

(** C2, as stated, fails in two ways: an explicit empty [language_code] is
    not the language code of the translation, and with the [NoTranslation]
    sentinel a translated argument is applied to no record at all. *)
Lemma init_language_code_counterexample :
  let cls := Example.Article_class in
  let opts := ModelClass.translations_opts cls in
  let empty := <["language_code" := Str ""]> {["title" := Str "t"]} in
  let sentinel := <["language_code" := NoTranslation]> {["title" := Str "t"]} in
  (empty !! "language_code" = Some (Str "")
   ∧ ∃ translation,
       Entity.cached_translation (__init__ cls (Some "en") [] empty)
         = Some translation
       ∧ Translation.values translation !! "language_code" = Some (Str "en"))
  ∧ (sentinel !! "title" = Some (Str "t")
     ∧ is_shared_name opts "title" = false
     ∧ Entity.cached_translation (__init__ cls (Some "en") [] sentinel) = None).
Proof.
  split.
  - split; [reflexivity|]. eexists. split; [vm_compute; reflexivity|].
    vm_compute. reflexivity.
  - split_and!; vm_compute; reflexivity.
Qed.

(** C9.  A [language_code] keyword argument whose value is false (such as
    [None] or the empty string) gives the entity a translation whose
    language code is the ambient active language, the same translation as
    when the argument is omitted; when [language_code] is a name of the
    translated namespace, as it is for every model this module builds, the
    two entities are equal. *)
Theorem init_falsy_language_code (cls : ModelClass.t)
    (get_language : option string) (args : list value)
    (kwargs : gmap string value) (v : value) :
  truthy v = false →
  let opts := ModelClass.translations_opts cls in
  let given :=
    __init__ cls get_language args (<["language_code" := v]> kwargs) in
  let omitted :=
    __init__ cls get_language args (delete "language_code" kwargs) in
  (∃ translation,
     Entity.cached_translation given = Some translation
     ∧ Translation.values translation !! "language_code"
         = Some (ambient_language get_language))
  ∧ Entity.cached_translation given = Entity.cached_translation omitted
  ∧ Shared.args (Entity.shared given) = Shared.args (Entity.shared omitted)
  ∧ (is_shared_name opts "language_code" = false → given = omitted).
Proof.
  intros Hfalsy opts given omitted.
  unfold given, omitted. rewrite !__init___closed. fold opts. cbn zeta.
  assert (translated_kwargs opts (delete "language_code" kwargs)
            !! "language_code" = None) as Hdel.
  { unfold translated_kwargs. apply map_lookup_filter_None. left.
    apply lookup_delete_eq. }
  assert (dict_get (translated_kwargs opts (delete "language_code" kwargs))
            "language_code" = None_) as Hget_omitted.
  { unfold dict_get. by rewrite Hdel. }
  rewrite Hget_omitted.
  assert (or_ None_ (ambient_language get_language)
            = ambient_language get_language) as -> by done.
  destruct (is_shared_name opts "language_code") eqn:Hs.
  - (* [language_code] in the shared namespace *)
    assert (translated_kwargs opts (<["language_code" := v]> kwargs)
            = translated_kwargs opts (delete "language_code" kwargs)) as ->.
    { unfold translated_kwargs. apply map_filter_insert_False. simpl.
      congruence. }
    rewrite Hget_omitted.
    assert (or_ None_ (ambient_language get_language)
              = ambient_language get_language) as -> by done.
    rewrite bool_decide_eq_true_2 by apply ambient_language_not_sentinel.
    simpl. split_and!; [|done|done|done].
    eexists. split; [done|]. apply lookup_insert_eq.
  - (* [language_code] in the translated namespace *)
    assert (translated_kwargs opts (<["language_code" := v]> kwargs)
            = <["language_code" := v]>
                (translated_kwargs opts (delete "language_code" kwargs)))
      as ->.
    { unfold translated_kwargs. rewrite map_filter_insert_True by done.
      rewrite map_filter_delete. by rewrite insert_delete_eq. }
    assert (shared_kwargs opts (<["language_code" := v]> kwargs)
            = shared_kwargs opts (delete "language_code" kwargs)) as ->.
    { unfold shared_kwargs. apply map_filter_insert_False. simpl.
      congruence. }
    assert (∀ m : gmap string value,
              dict_get (<["language_code" := v]> m) "language_code" = v)
      as Hget_given.
    { intros m. unfold dict_get. by rewrite lookup_insert_eq. }
    rewrite Hget_given.
    rewrite ambient_language_or by done.
    rewrite bool_decide_eq_true_2 by apply ambient_language_not_sentinel.
    rewrite insert_insert_eq. simpl.
    split_and!; [|done|done|done].
    eexists. split; [done|]. apply lookup_insert_eq.
Qed.

Lemma init_falsy_language_code_witness :
  truthy (Str "") = false
  ∧ ∃ translation,
      Entity.cached_translation
        (__init__ Example.Article_class (Some "en") []
           (<["language_code" := Str ""]> {["title" := Str "t"]}))
        = Some translation
      ∧ Translation.values translation !! "language_code" = Some (Str "en").
Proof.
  split; [reflexivity|].
  exact (proj1 (init_falsy_language_code Example.Article_class (Some "en") []
                  {["title" := Str "t"]} (Str "") eq_refl)).
Defined.

(** ** Rehydration from storage *)

Section rehydration.
Context (field_names : list string).

(** The comprehension over the reversed list hands the values out in
    their original order. *)
Lemma from_db_values_rehydrated (fields : list Field.t) : ∀ values,
  length values = length (present field_names fields) →
  ∃ args,
    from_db_values fields field_names (reverse values) = Ok args
    ∧ rehydrated field_names fields values args.
Proof.
  unfold present.
  induction fields as [|f fields IH]; intros values Hlen; simpl.
  - destruct values; [|done]. exists []. split; [done|constructor].
  - rewrite filter_cons in Hlen. case_bool_decide as Hf.
    + rewrite decide_True in Hlen by done.
      destruct values as [|v values]; [done|].
      rewrite reverse_cons, pop_snoc.
      destruct (IH values) as (args & -> & Hargs); [by simplify_eq/=|].
      exists (v :: args). split; [done|]. by constructor.
    + rewrite decide_False in Hlen by done.
      destruct (IH values) as (args & -> & Hargs); [done|].
      exists (DEFERRED :: args). split; [done|]. by constructor.
Qed.

(** When every column was loaded the values are passed on as they are. *)
Lemma all_present_rehydrated (fields : list Field.t) : ∀ values,
  length values = length fields →
  length values = length (present field_names fields) →
  rehydrated field_names fields values values.
Proof.
  unfold present.
  induction fields as [|f fields IH]; intros values Hlen Hpres.
  - destruct values; [constructor|done].
  - destruct values as [|v values]; [done|].
    rewrite filter_cons in Hpres.
    destruct (decide (Field.attname f ∈ field_names)) as [Hf|Hf].
    + constructor; [done|]. apply IH; by simplify_eq/=.
    + pose proof (length_filter (λ f, Field.attname f ∈ field_names) fields).
      simpl in *. lia.
Qed.

Lemma rehydrated_length fields values args :
  rehydrated field_names fields values args →
  length args = length fields
  ∧ length values = length (present field_names fields).
Proof.
  unfold present.
  induction 1 as [|f fields v values args Hf _ [IH1 IH2]
                  |f fields values args Hf _ [IH1 IH2]]; simpl.
  - done.
  - rewrite filter_cons_True by done. simpl. lia.
  - rewrite filter_cons_False by done. lia.
Qed.

(** The field at position [i] gets [DEFERRED] when its column was not
    loaded, and otherwise the value whose rank among the loaded values is
    the rank of the field among the loaded fields. *)
Lemma rehydrated_lookup fields values args :
  rehydrated field_names fields values args →
  ∀ i f, fields !! i = Some f →
    args !! i =
      if bool_decide (Field.attname f ∈ field_names)
      then values !! length (present field_names (take i fields))
      else Some DEFERRED.
Proof.
  unfold present.
  induction 1 as [|f fields v values args Hf _ IH
                  |f fields values args Hf _ IH]; intros i g Hi.
  - done.
  - destruct i as [|i]; simpl in *.
    + injection Hi as ->. by rewrite bool_decide_eq_true_2.
    + rewrite filter_cons_True by done. simpl. by apply IH.
  - destruct i as [|i]; simpl in *.
    + injection Hi as ->. by rewrite bool_decide_eq_false_2.
    + rewrite filter_cons_False by done. by apply IH.
Qed.

End rehydration.

(** C5.  [from_db], given one value per loaded column, returns an entity
    whose positional arguments give every concrete field, in order,
    [DEFERRED] when its column is not among [field_names] and otherwise
    the loaded value of the same rank; no translation is attached, since
    [__init__] is given the [NoTranslation] sentinel; the entity is marked
    as stored in [db].  [language_code] is a name of the translated
    namespace, as it is for every model this module builds. *)
Theorem from_db_rehydrates (cls : ModelClass.t) (get_language : option string)
    (db : string) (field_names : list string) (values : list value) :
  let opts := ModelClass.translations_opts cls in
  let fields := ModelClass.concrete_fields cls in
  is_shared_name opts "language_code" = false →
  length values = length (present field_names fields) →
  ∃ new,
    from_db cls get_language db field_names values = Ok new
    ∧ rehydrated field_names fields values (Shared.args (Entity.shared new))
    ∧ length (Shared.args (Entity.shared new)) = length fields
    ∧ (∀ i f, fields !! i = Some f → Field.attname f ∉ field_names →
         Shared.args (Entity.shared new) !! i = Some DEFERRED)
    ∧ (∀ i f, fields !! i = Some f → Field.attname f ∈ field_names →
         Shared.args (Entity.shared new) !! i =
           values !! length (present field_names (take i fields)))
    ∧ Shared.kwargs (Entity.shared new) = ∅
    ∧ Entity.cached_translation new = None
    ∧ Shared.adding (Entity.shared new) = false
    ∧ Shared.db (Entity.shared new) = Some db.
Proof.
  intros opts fields Hlc Hlen.
  assert (∃ args,
    (if bool_decide (length values ≠ length fields)
     then from_db_values fields field_names (reverse values)
     else Ok values) = Ok args
    ∧ rehydrated field_names fields values args) as (args & Hargs & Hre).
  { case_bool_decide as Hne.
    - by apply from_db_values_rehydrated.
    - exists values. split; [done|].
      apply all_present_rehydrated; [|done].
      by destruct (decide (length values = length fields)). }
  unfold from_db. fold fields. rewrite Hargs. simpl.
  rewrite __init___closed. fold opts. cbn zeta.
  assert (translated_kwargs opts {["language_code" := NoTranslation]}
          = {["language_code" := NoTranslation]}) as ->.
  { unfold translated_kwargs. rewrite map_filter_singleton.
    by rewrite decide_True. }
  assert (shared_kwargs opts {["language_code" := NoTranslation]} = ∅) as ->.
  { unfold shared_kwargs. rewrite map_filter_singleton.
    rewrite decide_False; [done|]. simpl. congruence. }
  unfold dict_get. rewrite lookup_singleton_eq. simpl.
  eexists. split; [reflexivity|]. simpl.
  split_and!; try done.
  - by apply (rehydrated_length field_names _ values).
  - intros i f Hi Hf. rewrite (rehydrated_lookup _ _ _ _ Hre i f Hi).
    by rewrite bool_decide_eq_false_2.
  - intros i f Hi Hf. rewrite (rehydrated_lookup _ _ _ _ Hre i f Hi).
    by rewrite bool_decide_eq_true_2.
Qed.

Lemma from_db_rehydrates_witness :
  is_shared_name Example.translations_opts "language_code" = false
  ∧ length [Int 7] = length (present ["id"] Example.shared_fields)
  ∧ ∃ new,
      from_db Example.Article_class (Some "en") "default" ["id"] [Int 7]
        = Ok new
      ∧ Shared.args (Entity.shared new) = [Int 7; DEFERRED]
      ∧ Entity.cached_translation new = None.
Proof.
  split; [reflexivity|]. split; [reflexivity|].
  destruct (from_db_rehydrates Example.Article_class (Some "en") "default"
              ["id"] [Int 7] eq_refl eq_refl)
    as (new & Hnew & _ & _ & _ & _ & _ & Hcache & _).
  exists new. split; [exact Hnew|]. split; [|exact Hcache].
  vm_compute in Hnew. injection Hnew as <-. reflexivity.
Defined.

(** ** Persistence *)

Lemma split_update_fields_spec opts (names : list string) :
  ∀ supdate tupdate,
  split_update_fields opts names supdate tupdate =
    (supdate ++ filter (λ n, is_shared_name opts n = true) names,
     tupdate ++ filter (λ n, is_shared_name opts n = false) names).
Proof.
  induction names as [|n names IH]; intros supdate tupdate; simpl.
  - by rewrite !app_nil_r.
  - assert (is_shared_name opts n = is_shared_name opts n) as Hs by done.
    unfold is_shared_name at 2 in Hs.
    destruct (bool_decide (n ∈ veto_names opts));
      [|destruct (TOptions.get_field opts n)]; rewrite IH.
    + rewrite filter_cons_True by done.
      rewrite filter_cons_False by congruence. by rewrite <- app_assoc.
    + rewrite filter_cons_False by congruence.
      rewrite filter_cons_True by done. by rewrite <- app_assoc.
    + rewrite filter_cons_True by done.
      rewrite filter_cons_False by congruence. by rewrite <- app_assoc.
Qed.

Lemma split_update_fields_shared opts (names : list string) :
  Forall (λ n, is_shared_name opts n = true) names →
  split_update_fields opts names [] [] = (names, []).
Proof.
  intros Hall. rewrite split_update_fields_spec. simpl. f_equal.
  - induction Hall as [|n names Hn _ IH]; [done|].
    rewrite filter_cons_True by done. by rewrite IH.
  - induction Hall as [|n names Hn _ IH]; [done|].
    rewrite filter_cons_False by congruence. done.
Qed.

(** C3.  When every name of [update_fields] belongs to the shared
    namespace, [save] does exactly the write of the shared record, with
    the same [update_fields] (and nothing at all when the list is empty):
    the translations table is what it was, whatever translation is
    attached and whatever its state; the attached translation is not
    touched, and the save of a translation record plays no part. *)
Theorem save_shared_update_fields {SharedTable TranslationsTable : Type}
    (Model_save : Shared.t → list value → SaveKwargs → SharedTable →
                  result (Shared.t * SharedTable))
    (Translation_save : Translation.t → list value → SaveKwargs →
                        TranslationsTable →
                        result (Translation.t * TranslationsTable))
    (cls : ModelClass.t) (self : Entity.t) (args : list value)
    (names : list string) (other_kwargs : gmap string value)
    (database : @Database SharedTable TranslationsTable) :
  let opts := ModelClass.translations_opts cls in
  let kwargs := mkSaveKwargs (Some names) other_kwargs in
  Forall (λ n, is_shared_name opts n = true) names →
  save Model_save Translation_save cls self args kwargs database =
    (if list_truthy names then
       '(shared, table) ←
         Model_save (Entity.shared self) args kwargs (shared_table database);
       Ok (Entity.mk shared (Entity.cached_translation self),
           mkDatabase table (translations_table database))
     else Ok (self, database))
  ∧ match save Model_save Translation_save cls self args kwargs database with
    | Ok (self', database') =>
        translations_table database' = translations_table database
        ∧ Entity.cached_translation self' = Entity.cached_translation self
    | Raise _ => True
    end
  ∧ (∀ Translation_save',
       save Model_save Translation_save' cls self args kwargs database =
       save Model_save Translation_save cls self args kwargs database).
Proof.
  intros opts kwargs Hshared.
  assert (∀ TS : Translation.t → list value → SaveKwargs →
                 TranslationsTable →
                 result (Translation.t * TranslationsTable),
    save Model_save TS cls self args kwargs database =
      (if list_truthy names then
         '(shared, table) ←
           Model_save (Entity.shared self) args kwargs (shared_table database);
         Ok (Entity.mk shared (Entity.cached_translation self),
             mkDatabase table (translations_table database))
       else Ok (self, database))) as Hsave.
  { intros TS. unfold save. fold opts. unfold kwargs at 1 2 3. simpl.
    rewrite split_update_fields_shared by done. simpl.
    unfold get_cached_translation.
    destruct names as [|n names]; simpl.
    - by destruct (Entity.cached_translation self).
    - fold kwargs.
      destruct (Model_save (Entity.shared self) args kwargs
                  (shared_table database)) as [[shared table]|e]; simpl;
        [|done].
      by destruct (Entity.cached_translation self). }
  split_and!.
  - apply Hsave.
  - rewrite Hsave. destruct (list_truthy names); [|done].
    destruct (Model_save (Entity.shared self) args kwargs
                (shared_table database)) as [[shared table]|e]; done.
  - intros TS'. by rewrite !Hsave.
Qed.

Lemma save_shared_update_fields_witness :
  Forall (λ n, is_shared_name Example.translations_opts n = true) ["slug"]
  ∧ is_Some (Entity.cached_translation Example.article)
  ∧ ∃ self',
      save Example.Model_save Example.Translation_save Example.Article_class
        Example.article [] (mkSaveKwargs (Some ["slug"]) ∅) (mkDatabase [] [])
      = Ok (self', mkDatabase [Entity.shared Example.article] []).
Proof.
  assert (Forall (λ n, is_shared_name Example.translations_opts n = true)
            ["slug"]) as Hshared.
  { constructor; [reflexivity|constructor]. }
  split; [exact Hshared|]. split; [by eexists|].
  rewrite (proj1 (save_shared_update_fields Example.Model_save
    Example.Translation_save Example.Article_class Example.article []
    ["slug"] ∅ (mkDatabase [] []) Hshared)).
  eexists. reflexivity.
Defined.

(** C4.  [translate] attaches a new translation record that holds the
    language code and nothing else, is unsaved and has no master; the
    shared record is unchanged and the database is handed back as it was.
    The outcome is the same whatever translation was attached before and
    whatever the database holds: nothing is looked up. *)
Theorem translate_attaches_new_record {SharedTable TranslationsTable : Type}
    (self : Entity.t) (language_code : value)
    (database : @Database SharedTable TranslationsTable) :
  let translation := Translation.new {["language_code" := language_code]} in
  let self' := Entity.mk (Entity.shared self) (Some translation) in
  translate self language_code database = Ok (self', database)
  ∧ Translation.values translation !! "language_code" = Some language_code
  ∧ Translation.adding translation = true
  ∧ Translation.master translation = None
  ∧ (∀ opts, TOptions.pk_name opts ≠ "language_code" →
       Translation.pk opts translation = None_)
  ∧ (∀ previous (database' : @Database SharedTable TranslationsTable),
       translate (Entity.mk (Entity.shared self) previous) language_code
         database' = Ok (self', database')).
Proof.
  intros translation self'.
  split; [done|]. split; [apply lookup_singleton_eq|].
  split; [done|]. split; [done|]. split; [|done].
  intros opts Hpk. unfold Translation.pk, dict_get. simpl.
  by rewrite lookup_singleton_ne.
Qed.

(** ** Schema checks *)

Lemma filter_fmap_none {A B} (f : A → B) (P : B → Prop)
    `{∀ b, Decision (P b)} (l : list A) :
  (∀ y, y ∈ l → ¬ P (f y)) → filter P (f <$> l) = [].
Proof.
  induction l as [|y l IH]; intros HP; [done|].
  rewrite fmap_cons, filter_cons_False.
  - apply IH. intros z Hz. apply HP. by apply list_elem_of_further.
  - apply HP. apply list_elem_of_here.
Qed.

Lemma filter_fmap_one {A B} (f : A → B) (P : B → Prop)
    `{∀ b, Decision (P b)} (l : list A) (x : A) :
  NoDup l → x ∈ l → (∀ y, P (f y) ↔ y = x) →
  filter P (f <$> l) = [f x].
Proof.
  intros Hnd Hx HP. induction Hnd as [|y l Hy Hnd IH]; [by inversion Hx|].
  rewrite fmap_cons, filter_cons.
  destruct (decide (P (f y))) as [Hp|Hp].
  - apply HP in Hp as ->. f_equal.
    apply filter_fmap_none. intros z Hz Hpz. apply HP in Hpz as ->. done.
  - apply IH. apply elem_of_cons in Hx as [->|Hx]; [|done].
    exfalso. apply Hp. by apply HP.
Qed.

Lemma elem_of_names_and_attnames (fields : list Field.t) (n : string) :
  n ∈ names_and_attnames fields ↔ resolves fields n.
Proof.
  unfold names_and_attnames, resolves.
  rewrite list_elem_of_In, in_flat_map. split.
  - intros (f & Hf & Hn). exists f. split; [by apply list_elem_of_In|].
    simpl in Hn. destruct Hn as [<-|[<-|[]]]; auto.
  - intros (f & Hf & Hn). exists f. split; [by apply list_elem_of_In|].
    simpl. destruct Hn as [->| ->]; auto.
Qed.

Lemma elem_of_clash_names (cls : ModelClass.t) (n : string) :
  n ∈ (list_to_set (names_and_attnames
         (filter (λ f, Field.name f ∉ ["id"; "master"])
            (TOptions.fields (ModelClass.translations_opts cls))))
       ∩ list_to_set (names_and_attnames (ModelClass.fields cls))
       : gset string)
  ↔ clashes cls n.
Proof.
  unfold clashes, resolves_translated.
  by rewrite elem_of_intersection, !elem_of_list_to_set,
    !elem_of_names_and_attnames.
Qed.

(** A valid declaration builds its class. *)
Lemma contribute_to_class_ok
    (TABLE_NAME_FORMAT : string → string)
    (ModelBase : string → list TranslationsBase → gmap string Attr → TModel.t)
    (self : TranslatedFields.t) (model : PyClass) (name : string) :
  valid_declaration self model →
  raises (TranslatedFields.contribute_to_class TABLE_NAME_FORMAT ModelBase
            self model name) = false.
Proof.
  intros (Horder & Htm & Hbases & Hconstraints).
  unfold TranslatedFields.contribute_to_class.
  assert (match Options.order_with_respect_to (_meta model) with
          | Some f => bool_decide (f ∈ dom (TranslatedFields.fields self))
          | None => false
          end = false) as ->.
  { destruct (Options.order_with_respect_to (_meta model)) as [f|]; [|done].
    apply bool_decide_eq_false. by apply Horder. }
  rewrite Htm. rewrite bool_decide_eq_false_2 by (by intros [? ?]).
  unfold TranslatedFields.create_translations_model.
  destruct (scan_loop_unexposed (Options.model_name (_meta model))
              (reverse (__bases__ model)) [] ∅) as [[bases inherited] Hscan].
  { rewrite Forall_forall in Hbases. apply Forall_forall. intros b Hb.
    apply Hbases. by apply elem_of_reverse. }
  assert (_scan_model_bases model
          = Ok (bases ++ [BaseTranslationModel], inherited)) as Hscan'.
  { unfold _scan_model_bases. by rewrite Hscan. }
  rewrite Hscan'. cbn [mbind result_bind].
  destruct (Hconstraints _ _ Hscan') as [Hunique Hindex].
  unfold TranslatedFields._build_meta_class, _split_together.
  rewrite (_split_together_loop_ok _ "unique_together") by done.
  cbn [mbind result_bind].
  cbn [Options.set_unique_together Options.index_together].
  rewrite (_split_together_loop_ok _ "index_together") by done.
  cbn [mbind result_bind]. simpl.
  by destruct (Options.abstract (_meta model)).
Qed.

(** The shared fields play no part in the synthesis of the translations
    model: [contribute_to_class] has the same outcome whatever they are. *)
Lemma contribute_to_class_fields
    (TABLE_NAME_FORMAT : string → string)
    (ModelBase : string → list TranslationsBase → gmap string Attr → TModel.t)
    (self : TranslatedFields.t) (n m : string) (meta : Options.t)
    (bs : list PyClass) (name : string) (shared_fields : list Field.t) :
  TranslatedFields.contribute_to_class TABLE_NAME_FORMAT ModelBase self
    (Class n m (Options.set_fields shared_fields meta) bs) name =
  match TranslatedFields.contribute_to_class TABLE_NAME_FORMAT ModelBase self
          (Class n m meta bs) name with
  | Ok meta' => Ok (Options.set_fields shared_fields meta')
  | Raise e => Raise e
  end.
Proof.
  unfold TranslatedFields.contribute_to_class,
    TranslatedFields.create_translations_model,
    TranslatedFields._build_meta_class, _scan_model_bases. simpl.
  destruct (match Options.order_with_respect_to meta with
            | Some f => _ | None => _ end); [done|].
  destruct (bool_decide (is_Some (Options.translations_model meta))); [done|].
  destruct (_scan_model_bases_loop (Options.model_name meta) (reverse bs) [] ∅)
    as [[bases fields]|e]; simpl; [|done].
  destruct (_split_together (Options.unique_together meta) _ "unique_together")
    as [[sconst tconst]|e]; simpl; [|done].
  destruct (_split_together (Options.index_together meta) _ "index_together")
    as [[sconst' tconst']|e]; simpl; [|done].
  by destruct (Options.abstract meta).
Qed.

(** C6.  For every name that is the name or the storage-column name of a
    translated field (the fields named [id] and [master] aside) and also
    of a shared field, the list returned by
    [_check_shared_translated_clash] holds exactly one error that
    identifies that name, the error [hvad.models.E01]; every error of that
    list is about such a name; [check] returns the error in its list.
    The construction of the class does not look at the shared fields:
    [contribute_to_class] has the outcome it would have without them, and
    it does not raise when the declaration is valid. *)
Theorem clash_reported_once
    (TABLE_NAME_FORMAT : string → string)
    (ModelBase : string → list TranslationsBase → gmap string Attr → TModel.t)
    (self : TranslatedFields.t) (n m : string) (meta : Options.t)
    (bs : list PyClass) (accessor : string)
    (cls : ModelClass.t) (super_check : list CheckError) (field : string) :
  clashes cls field →
  let error :=
    Error (Msg_clash field) (ModelClass.name cls) "hvad.models.E01" in
  let model := Class n m (Options.set_fields (ModelClass.fields cls) meta) bs in
  errors_about Msg_clash field (_check_shared_translated_clash cls) = [error]
  ∧ (∀ e, e ∈ _check_shared_translated_clash cls →
       ∃ field', clashes cls field'
         ∧ e = Error (Msg_clash field') (ModelClass.name cls) "hvad.models.E01")
  ∧ error ∈ check cls super_check
  ∧ TranslatedFields.contribute_to_class TABLE_NAME_FORMAT ModelBase self
      model accessor
    = match TranslatedFields.contribute_to_class TABLE_NAME_FORMAT ModelBase
              self (Class n m meta bs) accessor with
      | Ok meta' => Ok (Options.set_fields (ModelClass.fields cls) meta')
      | Raise e => Raise e
      end
  ∧ (valid_declaration self (Class n m meta bs) →
     raises (TranslatedFields.contribute_to_class TABLE_NAME_FORMAT ModelBase
               self model accessor) = false).
Proof.
  intros Hclash error model.
  assert (error ∈ _check_shared_translated_clash cls) as Hin.
  { unfold _check_shared_translated_clash.
    apply list_elem_of_fmap. exists field. split; [done|].
    apply elem_of_elements. by apply elem_of_clash_names. }
  split_and!.
  - unfold errors_about, _check_shared_translated_clash.
    apply (filter_fmap_one
             (λ field, Error (Msg_clash field) (ModelClass.name cls)
                         "hvad.models.E01")).
    + apply NoDup_elements.
    + apply elem_of_elements. by apply elem_of_clash_names.
    + intros y. simpl. split; [by intros [= ->]|by intros ->].
  - intros e He. unfold _check_shared_translated_clash in He.
    apply list_elem_of_fmap in He as (field' & -> & He).
    exists field'. split; [|done].
    apply elem_of_clash_names. by apply elem_of_elements.
  - unfold check. apply elem_of_app. right. apply elem_of_app. by left.
  - apply contribute_to_class_fields.
  - intros Hvalid. unfold model. rewrite contribute_to_class_fields.
    pose proof (contribute_to_class_ok TABLE_NAME_FORMAT ModelBase self
                  (Class n m meta bs) accessor Hvalid) as Hok.
    by destruct (TranslatedFields.contribute_to_class _ _ _ _ _).
Qed.

Lemma clash_reported_once_witness :
  clashes Example.Clash_class "title"
  ∧ _check_shared_translated_clash Example.Clash_class =
      [Error (Msg_clash "title") "Clash" "hvad.models.E01"]
  ∧ errors_about Msg_clash "title"
      (_check_shared_translated_clash Example.Clash_class) =
      [Error (Msg_clash "title") "Clash" "hvad.models.E01"]
  ∧ raises (TranslatedFields.contribute_to_class Example.TABLE_NAME_FORMAT
              Example.ModelBase Example.translated_fields Example.Clash
              "translations") = false.
Proof.
  assert (clashes Example.Clash_class "title") as Hclash.
  { split.
    - exists (Field.mk "title" "title"). split; [|by left].
      apply list_elem_of_filter. split.
      + simpl. apply (bool_decide_unpack _). by vm_compute.
      + apply list_elem_of_further, list_elem_of_here.
    - exists (Field.mk "title" "title"). split; [|by left].
      apply list_elem_of_further, list_elem_of_here. }
  split; [exact Hclash|]. split; [reflexivity|].
  split; [|reflexivity].
  exact (proj1 (clash_reported_once Example.TABLE_NAME_FORMAT
    Example.ModelBase Example.translated_fields "Clash" "app.models"
    (Example.options "clash" false None) [TranslatableModel] "translations"
    Example.Clash_class [] "title" Hclash)).
Defined.

(** ** The ordering check *)

Lemma elem_of_ordering_names (entries : list string) (n : string) :
  n ∈ ordering_names entries ↔ ordered_by entries n.
Proof.
  unfold ordering_names, ordered_by.
  rewrite elem_of_list_to_set, list_elem_of_filter, list_elem_of_fmap.
  fold strip_direction. split.
  - intros [[Hspecial Hdunder] (entry & -> & Hentry)].
    apply list_elem_of_filter in Hentry as [Hq Hentry].
    exists entry. split_and!; done.
  - intros (entry & Hentry & Hq & -> & Hspecial & Hdunder).
    split; [done|]. exists entry. split; [done|].
    by apply list_elem_of_filter.
Qed.

Lemma startswith_minus_cons (a : Ascii.ascii) (s : string) :
  startswith_minus (String a s) =
    if Ascii.ascii_dec "-"%char a then true else false.
Proof.
  unfold startswith_minus. cbn [String.prefix].
  destruct (Ascii.ascii_dec "-"%char a); [|done]. by destruct s.
Qed.

(** A [-] in front of a name hides no [__]. *)
Lemma contains_dunder_strip (entry : string) :
  contains_dunder entry = true →
  contains_dunder (strip_direction entry) = true.
Proof.
  unfold strip_direction.
  destruct entry as [|a entry]; [done|].
  rewrite startswith_minus_cons.
  destruct (Ascii.ascii_dec "-"%char a) as [<-|]; [|done].
  cbn [contains_dunder drop_first]. intros Hd.
  apply orb_true_iff in Hd as [Hd|Hd]; [|done].
  by vm_compute in Hd.
Qed.

Lemma _check_ordering_seq (cls : ModelClass.t) (entries : list string) :
  ModelClass.ordering cls = OrderingSeq entries →
  ∃ names : gset string,
    _check_ordering cls =
      (λ field, Error (Msg_ordering_field field) (ModelClass.name cls)
                  "models.E015") <$> elements names
    ∧ ∀ n, n ∈ names ↔ unresolved cls entries n.
Proof.
  intros Hord. unfold _check_ordering. rewrite Hord. simpl.
  destruct entries as [|entry entries]; simpl.
  - exists ∅. split; [by rewrite elements_empty|].
    intros n. split; [set_solver|].
    intros [(entry & Hentry & _) _]. by apply elem_of_nil in Hentry.
  - eexists. split; [reflexivity|]. intros n. unfold unresolved.
    rewrite !elem_of_difference, elem_of_ordering_names,
      !elem_of_list_to_set, !elem_of_names_and_attnames.
    unfold resolves_translated. tauto.
Qed.

Lemma ordering_errors_one (cls : ModelClass.t) (entries : list string)
    (n : string) :
  ModelClass.ordering cls = OrderingSeq entries →
  unresolved cls entries n →
  errors_about Msg_ordering_field n (_check_ordering cls) =
    [Error (Msg_ordering_field n) (ModelClass.name cls) "models.E015"].
Proof.
  intros Hord Hn.
  destruct (_check_ordering_seq cls entries Hord) as (names & -> & Hnames).
  unfold errors_about.
  apply (filter_fmap_one
           (λ field, Error (Msg_ordering_field field) (ModelClass.name cls)
                       "models.E015")).
  - apply NoDup_elements.
  - apply elem_of_elements. by apply Hnames.
  - intros y. simpl. split; [by intros [= ->]|by intros ->].
Qed.

Lemma ordering_errors_none (cls : ModelClass.t) (entries : list string)
    (n : string) :
  ModelClass.ordering cls = OrderingSeq entries →
  ¬ unresolved cls entries n →
  errors_about Msg_ordering_field n (_check_ordering cls) = [].
Proof.
  intros Hord Hn.
  destruct (_check_ordering_seq cls entries Hord) as (names & -> & Hnames).
  unfold errors_about. apply filter_fmap_none.
  intros y Hy. simpl. intros [= ->]. apply Hn, Hnames.
  by apply elem_of_elements.
Qed.

Lemma ordering_errors_elem (cls : ModelClass.t) (entries : list string)
    (e : CheckError) :
  ModelClass.ordering cls = OrderingSeq entries →
  e ∈ _check_ordering cls →
  ∃ n, unresolved cls entries n
    ∧ e = Error (Msg_ordering_field n) (ModelClass.name cls) "models.E015".
Proof.
  intros Hord He.
  destruct (_check_ordering_seq cls entries Hord) as (names & Heq & Hnames).
  rewrite Heq in He. apply list_elem_of_fmap in He as (n & -> & Hin).
  exists n. split; [|done]. by apply Hnames, elem_of_elements.
Qed.

(** C7, as amended.  For a default ordering that is a list or tuple, and
    every name [n]: when [n] is an entry of the ordering (its sort
    direction stripped) that is not [?], [_order] or [pk], holds no
    relation-lookup separator [__], and resolves against neither the
    shared fields nor the translated fields (the fields named [master] and
    [language_code] aside), [_check_ordering] returns exactly one error
    that identifies [n], the error [models.E015]; otherwise it returns no
    error that identifies [n], in particular when [n] names a translated
    field; and it returns no other error. *)
Theorem ordering_check_reports (cls : ModelClass.t) (entries : list string)
    (n : string) :
  ModelClass.ordering cls = OrderingSeq entries →
  let errors := _check_ordering cls in
  (unresolved cls entries n →
     errors_about Msg_ordering_field n errors =
       [Error (Msg_ordering_field n) (ModelClass.name cls) "models.E015"])
  ∧ (¬ unresolved cls entries n →
       errors_about Msg_ordering_field n errors = [])
  ∧ (resolves_translated ["master"; "language_code"] cls n →
       errors_about Msg_ordering_field n errors = [])
  ∧ (∀ e, e ∈ errors →
       ∃ n', unresolved cls entries n'
         ∧ e = Error (Msg_ordering_field n') (ModelClass.name cls)
                 "models.E015").
Proof.
  intros Hord errors. unfold errors. split_and!.
  - intros Hn. by apply (ordering_errors_one cls entries).
  - intros Hn. by apply (ordering_errors_none cls entries).
  - intros Ht. apply (ordering_errors_none cls entries); [done|].
    intros (_ & _ & Hnt). done.
  - intros e He. by apply ordering_errors_elem.
Qed.

Lemma ordering_check_reports_witness :
  ModelClass.ordering Example.Clash_class
    = OrderingSeq ["-title"; "nonexistent_field"; "author__name"]
  ∧ unresolved Example.Clash_class
      ["-title"; "nonexistent_field"; "author__name"] "nonexistent_field"
  ∧ errors_about Msg_ordering_field "nonexistent_field"
      (_check_ordering Example.Clash_class) =
      [Error (Msg_ordering_field "nonexistent_field") "Clash" "models.E015"]
  ∧ errors_about Msg_ordering_field "title"
      (_check_ordering Example.Clash_class) = [].
Proof.
  assert (unresolved Example.Clash_class
            ["-title"; "nonexistent_field"; "author__name"]
            "nonexistent_field") as Hun.
  { split_and!.
    - exists "nonexistent_field". split_and!; try done.
      + apply list_elem_of_further, list_elem_of_here.
      + apply (bool_decide_unpack _). by vm_compute.
    - intros Hr%elem_of_names_and_attnames.
      by apply (bool_decide_pack _) in Hr.
    - intros Hr%elem_of_names_and_attnames.
      by apply (bool_decide_pack _) in Hr. }
  split; [reflexivity|]. split; [exact Hun|]. split.
  - exact (proj1 (ordering_check_reports Example.Clash_class _
                    "nonexistent_field" eq_refl) Hun).
  - reflexivity.
Defined.

(** C7, as stated, fails on an entry that holds the relation-lookup
    separator: [author__name] resolves against neither schema, and no
    error is reported for it. *)
Lemma ordering_lookup_not_reported :
  let cls := Example.Clash_class in
  ModelClass.ordering cls
    = OrderingSeq ["-title"; "nonexistent_field"; "author__name"]
  ∧ strip_direction "author__name" = "author__name"
  ∧ ¬ resolves (ModelClass.fields cls) "author__name"
  ∧ ¬ resolves_translated ["master"; "language_code"] cls "author__name"
  ∧ _check_ordering cls =
      [Error (Msg_ordering_field "nonexistent_field") "Clash" "models.E015"]
  ∧ errors_about Msg_ordering_field "author__name" (_check_ordering cls) = [].
Proof.
  split_and!; try reflexivity.
  - intros Hr%elem_of_names_and_attnames.
    by apply (bool_decide_pack _) in Hr.
  - intros Hr%elem_of_names_and_attnames.
    by apply (bool_decide_pack _) in Hr.
Qed.

(** C10.  An ordering entry that holds the relation-lookup separator [__]
    is never reported by [_check_ordering], with or without its sort
    direction, whatever the fields of the model are: every name the check
    reports is free of [__]. *)
Theorem ordering_lookup_never_reported (cls : ModelClass.t)
    (entries : list string) (entry : string) :
  ModelClass.ordering cls = OrderingSeq entries →
  entry ∈ entries →
  contains_dunder entry = true →
  errors_about Msg_ordering_field (strip_direction entry)
    (_check_ordering cls) = []
  ∧ errors_about Msg_ordering_field entry (_check_ordering cls) = []
  ∧ (∀ e n, e ∈ _check_ordering cls → msg e = Msg_ordering_field n →
       contains_dunder n = false).
Proof.
  intros Hord Hentry Hdunder.
  pose proof (contains_dunder_strip _ Hdunder) as Hstripped.
  assert (∀ n, contains_dunder n = true → ¬ unresolved cls entries n) as Hno.
  { intros n Hn ((entry' & _ & _ & _ & _ & Hfree) & _). congruence. }
  split_and!.
  - apply (ordering_errors_none cls entries); [done|]. by apply Hno.
  - apply (ordering_errors_none cls entries); [done|]. by apply Hno.
  - intros e n He Hmsg.
    destruct (ordering_errors_elem cls entries e Hord He)
      as (n' & ((entry' & _ & _ & _ & _ & Hfree) & _) & ->).
    simpl in Hmsg. by injection Hmsg as <-.
Qed.

Lemma ordering_lookup_never_reported_witness :
  ModelClass.ordering Example.Clash_class
    = OrderingSeq ["-title"; "nonexistent_field"; "author__name"]
  ∧ "author__name" ∈ ["-title"; "nonexistent_field"; "author__name"]
  ∧ contains_dunder "author__name" = true
  ∧ errors_about Msg_ordering_field "author__name"
      (_check_ordering Example.Clash_class) = [].
Proof.
  assert ("author__name" ∈ ["-title"; "nonexistent_field"; "author__name"])
    as Hin.
  { apply list_elem_of_further, list_elem_of_further, list_elem_of_here. }
  split; [reflexivity|]. split; [exact Hin|]. split; [reflexivity|].
  exact (proj1 (proj2 (ordering_lookup_never_reported Example.Clash_class _
                         "author__name" eq_refl Hin eq_refl))).
Defined.

(** * Part III: the rest of the module *)

(** ** The declaration of translated fields *)

(** X1.  [TranslatedFields.__init__] raises [ImproperlyConfigured] exactly
    when one of the names [Meta], [objects], [master], [master_id] is the
    name of a declared field, and then reports exactly the forbidden names
    that are declared; otherwise it keeps the fields and the base class as
    given, and an absent [meta] is the empty dictionary. *)
Theorem translated_fields_init_forbidden
    (meta : option (gmap string MetaValue)) (base_class : option string)
    (fields : gmap string Attr) :
  match TranslatedFields.__init__ meta base_class fields with
  | Raise e =>
      ∃ names : gset string,
        e = ImproperlyConfigured_invalid_field names
        ∧ (∃ n, n ∈ names)
        ∧ ∀ n, n ∈ names ↔
               n ∈ forbidden_translated_fields ∧ is_Some (fields !! n)
  | Ok self =>
      (∀ n, n ∈ forbidden_translated_fields → fields !! n = None)
      ∧ TranslatedFields.fields self = fields
      ∧ TranslatedFields.base_class self = base_class
      ∧ TranslatedFields.meta self = default ∅ meta
  end.
Proof.
  unfold TranslatedFields.__init__.
  assert (∀ n, n ∈ (list_to_set forbidden_translated_fields ∩ dom fields
                    : gset string)
               ↔ n ∈ forbidden_translated_fields ∧ is_Some (fields !! n))
    as Hmem.
  { intros n. by rewrite elem_of_intersection, elem_of_list_to_set,
      elem_of_dom. }
  case_bool_decide as Hforbidden.
  - eexists. split; [reflexivity|]. split; [|exact Hmem].
    by apply set_choose_L.
  - split_and!; try done.
    intros n Hn. destruct (fields !! n) as [a|] eqn:Hfield; [|done].
    exfalso.
    assert (n ∈ (∅ : gset string)) as Hin.
    { rewrite <- Hforbidden. apply Hmem. split; [done|]. rewrite Hfield.
      by eexists. }
    by apply not_elem_of_empty in Hin.
Qed.

(** ** The scan of the bases, in full *)

Lemma class_size_elem (b : PyClass) (bs : list PyClass) :
  b ∈ bs → (class_size b ≤ list_sum (map class_size bs))%nat.
Proof.
  induction 1 as [b bs|b c bs _ IH]; simpl; lia.
Qed.

(** Induction on a class with the property at hand for all its bases. *)
Lemma PyClass_bases_ind (P : PyClass → Prop) :
  P TranslatableModel →
  (∀ n m meta bs, Forall P bs → P (Class n m meta bs)) →
  ∀ c, P c.
Proof.
  intros Hroot Hclass c.
  remember (class_size c) as k eqn:Hk. revert c Hk.
  induction (lt_wf k) as [k _ IH]. intros [|n m meta bs] Hk; [done|].
  apply Hclass. apply Forall_forall. intros b Hb.
  apply (IH (class_size b)); [|done].
  pose proof (class_size_elem b bs Hb). simpl in Hk. lia.
Qed.

Lemma exposedb_spec (c : PyClass) : exposedb c = true ↔ exposed c.
Proof.
  split.
  - induction c as [|n m meta bs IH] using PyClass_bases_ind; [done|].
    simpl. intros (Hsub & Hcase)%andb_true_iff.
    apply orb_true_iff in Hcase as [Hconc|(Htm & Hbase)%andb_true_iff].
    + apply exposed_concrete; [done|]. by apply negb_true_iff.
    + apply bool_decide_eq_true in Htm.
      apply existsb_exists in Hbase as (b & Hb%list_elem_of_In & Hexp).
      destruct (Options.abstract meta) eqn:Habs;
        [|by apply exposed_concrete].
      eapply exposed_through; [done..|].
      by apply (proj1 (Forall_forall _ _) IH).
  - intros Hexp. pose proof (exposed_issubclass _ Hexp) as Hsub.
    induction Hexp as [n m meta bs _ Habs|n m meta bs b Habs Htm Hb Hexp IH].
    + simpl in *. rewrite Hsub, Habs. done.
    + simpl. simpl in Hsub. rewrite Hsub. cbn [andb].
      apply orb_true_iff. right. apply andb_true_iff.
      split; [by apply bool_decide_eq_true|].
      apply existsb_exists. exists b. split; [by apply list_elem_of_In|].
      apply IH. by apply exposed_issubclass.
Qed.

Lemma exposed_dec_bases (bs : list PyClass) :
  Exists exposed bs ∨ Forall (λ b, ¬ exposed b) bs.
Proof.
  induction bs as [|b bs [IH|IH]].
  - right. constructor.
  - left. by apply Exists_cons_tl.
  - destruct (exposedb b) eqn:Hb.
    + left. apply Exists_cons_hd. by apply exposedb_spec.
    + right. constructor; [|done]. rewrite <- exposedb_spec. congruence.
Qed.

Lemma scan_raises_exposed (model : PyClass) :
  raises (_scan_model_bases model) = true ↔ Exists exposed (__bases__ model).
Proof.
  unfold _scan_model_bases.
  destruct (exposed_dec_bases (__bases__ model)) as [Hex|Hall].
  - destruct (scan_loop_exposed (Options.model_name (_meta model))
                (reverse (__bases__ model)) [] ∅) as [bn ->]; [|done].
    apply Exists_exists in Hex as (b & Hb & Hexp).
    apply Exists_exists. exists b. split; [|done]. by apply elem_of_reverse.
  - destruct (scan_loop_unexposed (Options.model_name (_meta model))
                (reverse (__bases__ model)) [] ∅) as [[bases fields] ->].
    + rewrite Forall_forall in Hall. apply Forall_forall.
      intros b Hb Hexp. rewrite elem_of_reverse in Hb. by apply (Hall b).
    + simpl. split; [done|]. intros Hex. exfalso.
      rewrite Forall_forall in Hall.
      apply Exists_exists in Hex as (b & Hb & Hexp).
      by apply (Hall b).
Qed.

Lemma scan_raise_TypeError (model : PyClass) (e : exn) :
  _scan_model_bases model = Raise e →
  ∃ base_name,
    e = TypeError_multi_table base_name (Options.model_name (_meta model)).
Proof.
  intros He.
  assert (raises (_scan_model_bases model) = true) as Hr by (by rewrite He).
  apply scan_raises_exposed in Hr.
  destruct (scan_loop_exposed (Options.model_name (_meta model))
              (reverse (__bases__ model)) [] ∅) as [bn Hbn].
  { apply Exists_exists in Hr as (b & Hb & Hexp).
    apply Exists_exists. exists b. split; [|done]. by apply elem_of_reverse. }
  unfold _scan_model_bases in He. rewrite Hbn in He. simpl in He.
  exists bn. congruence.
Qed.

Lemma scan_ok_unexposed (model : PyClass) scanned inherited :
  _scan_model_bases model = Ok (scanned, inherited) →
  Forall (λ b, ¬ exposed b) (__bases__ model).
Proof.
  intros Hscan. apply Forall_forall. intros b Hb Hexp.
  assert (raises (_scan_model_bases model) = true) as Hr.
  { apply scan_raises_exposed. apply Exists_exists. by exists b. }
  by rewrite Hscan in Hr.
Qed.

(** X2.  [_scan_model_bases] raises exactly when one of the bases of the
    model is exposed, that is, is a concrete translatable model or an
    abstract translatable class without translations model that has such a
    base; the exception is the [TypeError] of multi-table inheritance,
    formatted with the name of the model. *)
Theorem scan_raises_iff_exposed (model : PyClass) :
  (raises (_scan_model_bases model) = true
   ↔ Exists exposed (__bases__ model))
  ∧ raises (_scan_model_bases model) = existsb exposedb (__bases__ model)
  ∧ (∀ e, _scan_model_bases model = Raise e →
       ∃ base_name,
         e = TypeError_multi_table base_name
               (Options.model_name (_meta model))).
Proof.
  split_and!.
  - apply scan_raises_exposed.
  - destruct (existsb exposedb (__bases__ model)) eqn:Hb.
    + apply scan_raises_exposed.
      apply existsb_exists in Hb as (b & Hb & Hexp).
      apply Exists_exists. exists b.
      split; [by apply list_elem_of_In|by apply exposedb_spec].
    + destruct (raises (_scan_model_bases model)) eqn:Hr; [|done].
      apply scan_raises_exposed in Hr.
      apply Exists_exists in Hr as (b & Hin & Hexp).
      assert (existsb exposedb (__bases__ model) = true) as Htrue; [|congruence].
      apply existsb_exists. exists b.
      split; [by apply list_elem_of_In|by apply exposedb_spec].
  - apply scan_raise_TypeError.
Qed.

(** With no exposed class on its stack, the loop appends the translations
    models its stack brings, from the top of the stack down, and adds the
    names of their fields. *)
Lemma scan_loop_collects model_name : ∀ scan_bases bases fields,
  Forall (λ b, ¬ exposed b) scan_bases →
  _scan_model_bases_loop model_name scan_bases bases fields =
    Ok (bases ++ ((λ tm, Inherited (TModel.name tm)) <$>
                    flat_map inherited_translations (reverse scan_bases)),
        fields ∪ list_to_set
          (translations_field_names
             (flat_map inherited_translations (reverse scan_bases)))).
Proof.
  intros scan_bases. remember (stack_size scan_bases) as k eqn:Hk.
  revert scan_bases Hk. induction (lt_wf k) as [k _ IH].
  intros scan_bases Hk bases fields Hall.
  destruct (pop scan_bases) as [[top rest]|] eqn:Hpop.
  2:{ rewrite scan_loop_step, Hpop. apply pop_None in Hpop as ->. simpl.
      by rewrite app_nil_r, (right_id_L ∅ (∪)). }
  apply pop_Some in Hpop as ->.
  rewrite scan_loop_snoc, reverse_snoc.
  apply Forall_app in Hall as [Hrest Htop].
  apply Forall_cons in Htop as [Htop _].
  assert (stack_size rest < k) as Hrest_lt.
  { rewrite Hk, stack_size_app. unfold stack_size at 3. simpl.
    destruct top; simpl; lia. }
  destruct top as [|n m meta bs].
  { simpl. by eapply IH. }
  cbn [flat_map inherited_translations].
  change (existsb issubclass_TranslatableModel bs)
    with (issubclass_TranslatableModel (Class n m meta bs)).
  destruct (issubclass_TranslatableModel (Class n m meta bs)) eqn:Hsub;
    cbn [negb]; [|by eapply IH].
  destruct (Options.abstract meta) eqn:Habs; cbn [negb].
  2:{ exfalso. apply Htop. by apply exposed_concrete. }
  destruct (Options.translations_model meta) as [tm|] eqn:Htm.
  - erewrite IH; [|done..]. f_equal. f_equal.
    + by rewrite <- app_assoc.
    + unfold translations_field_names. cbn [app flat_map].
      rewrite list_to_set_app_L. by rewrite (assoc_L (∪)).
  - assert (stack_size (rest ++ reverse bs) < k) as Hlt.
    { rewrite Hk, !stack_size_app, stack_size_reverse.
      unfold stack_size. simpl. lia. }
    assert (Forall (λ b, ¬ exposed b) (rest ++ reverse bs)) as Hall.
    { apply Forall_app. split; [done|].
      apply Forall_forall. intros b Hb Hexp. apply Htop.
      eapply exposed_through; [done..| |done]. by apply elem_of_reverse. }
    rewrite (IH _ Hlt _ eq_refl bases fields Hall).
    by rewrite reverse_app, reverse_involutive, flat_map_app.
Qed.

(** X3.  When no base of the model is exposed, [_scan_model_bases] returns
    the translations models of the nearest translatable ancestors that
    have one, depth first and in the order of the bases (classes that are
    not translatable and [TranslatableModel] itself bring nothing, an
    abstract translatable class without translations model brings what its
    own bases bring), followed by [BaseTranslationModel], together with
    the set of the names of the fields of these translations models. *)
Theorem scan_collects_inherited (model : PyClass) :
  Forall (λ b, ¬ exposed b) (__bases__ model) →
  let inherited := flat_map inherited_translations (__bases__ model) in
  _scan_model_bases model =
    Ok (((λ tm, Inherited (TModel.name tm)) <$> inherited)
          ++ [BaseTranslationModel],
        list_to_set (translations_field_names inherited)).
Proof.
  intros Hall inherited. unfold _scan_model_bases.
  rewrite scan_loop_collects.
  - rewrite reverse_involutive. fold inherited. simpl.
    by rewrite (left_id_L ∅ (∪)).
  - rewrite Forall_forall in Hall. apply Forall_forall.
    intros b Hb Hexp. rewrite elem_of_reverse in Hb. by apply (Hall b).
Qed.

Lemma scan_collects_inherited_witness :
  Forall (λ b, ¬ exposed b) (__bases__ Gallery.Picture)
  ∧ _scan_model_bases Gallery.Picture =
      Ok ([Inherited "AbstractBaseTranslation";
           Inherited "CaptionedTranslation"; BaseTranslationModel],
          {["summary"; "caption"]}).
Proof.
  assert (Forall (λ b, ¬ exposed b) (__bases__ Gallery.Picture)) as Hall.
  { repeat constructor; rewrite <- exposedb_spec; by vm_compute. }
  split; [exact Hall|].
  rewrite (scan_collects_inherited Gallery.Picture Hall). reflexivity.
Defined.

(** ** The synthesis of the translations model, in full *)

(** The two outcomes of [_split_together]. *)
Lemma _split_together_cases (cs : list constraint) (fields : gset string)
    (name : string) :
  (Forall (λ c, ¬ mixed fields c) cs
   ∧ _split_together cs fields name =
       Ok (filter (λ c, ¬ all_translated fields c) cs,
           filter (all_translated fields) cs))
  ∨ (∃ c, c ∈ cs ∧ mixed fields c
        ∧ _split_together cs fields name =
            Raise (ImproperlyConfigured_mixed name c)).
Proof.
  unfold _split_together.
  destruct (first_mixed fields cs) as [Hok|(pre & c & post & -> & Hpre & Hc)].
  - left. split; [done|]. by rewrite (_split_together_loop_ok fields name).
  - right. exists c. split_and!; [|done|].
    + apply elem_of_app. right. apply list_elem_of_here.
    + by apply _split_together_loop_raise.
Qed.

Section synthesis_facts.
Context (TABLE_NAME_FORMAT : string → string).
Context (self : TranslatedFields.t) (model_meta : Options.t).
Context (tfields : gset string).

(** The options [_build_meta_class] starts from: those of the author,
    overridden by the six of the [update]. *)
Let base_options : gmap string MetaValue :=
  <["default_permissions" := MNames []]>
  (<["db_table" := default
       (MStr (TABLE_NAME_FORMAT (Options.db_table model_meta)))
       (TranslatedFields.meta self !! "db_table")]>
  (<["app_label" := MStr (Options.app_label model_meta)]>
  (<["managed" := MBool (Options.managed model_meta)]>
  (<["db_tablespace" := MStr (Options.db_tablespace model_meta)]>
  (<["abstract" := MBool (Options.abstract model_meta)]>
     (TranslatedFields.meta self)))))).

Lemma _build_meta_class_ok :
  Forall (λ c, ¬ mixed tfields c) (Options.unique_together model_meta) →
  Forall (λ c, ¬ mixed tfields c) (Options.index_together model_meta) →
  TranslatedFields._build_meta_class TABLE_NAME_FORMAT self model_meta tfields
  = Ok (<["index_together" :=
            MTogether (filter (all_translated tfields)
                         (Options.index_together model_meta))]>
        (<["unique_together" :=
            MTogether (filter (all_translated tfields)
                         (Options.unique_together model_meta)
                       ++ (if Options.abstract model_meta then []
                           else [["language_code"; "master"]]))]>
           base_options),
        Options.set_index_together
          (filter (λ c, ¬ all_translated tfields c)
             (Options.index_together model_meta))
          (Options.set_unique_together
             (filter (λ c, ¬ all_translated tfields c)
                (Options.unique_together model_meta))
             model_meta)).
Proof.
  intros Hunique Hindex. unfold TranslatedFields._build_meta_class.
  destruct (_split_together_cases (Options.unique_together model_meta)
              tfields "unique_together") as [[_ ->]|(c & Hc & Hmixed & _)].
  2:{ rewrite Forall_forall in Hunique. by destruct (Hunique c Hc). }
  cbn [mbind result_bind Options.set_unique_together Options.index_together].
  destruct (_split_together_cases (Options.index_together model_meta)
              tfields "index_together") as [[_ ->]|(c & Hc & Hmixed & _)].
  2:{ rewrite Forall_forall in Hindex. by destruct (Hindex c Hc). }
  cbn [mbind result_bind]. f_equal. f_equal. f_equal.
  destruct (Options.abstract model_meta); cbn [negb].
  - by rewrite app_nil_r.
  - by rewrite insert_insert_eq.
Qed.

Lemma _build_meta_class_unique_mixed c :
  c ∈ Options.unique_together model_meta → mixed tfields c →
  ∃ c', c' ∈ Options.unique_together model_meta ∧ mixed tfields c'
    ∧ TranslatedFields._build_meta_class TABLE_NAME_FORMAT self model_meta
        tfields = Raise (ImproperlyConfigured_mixed "unique_together" c').
Proof.
  intros Hc Hmixed. unfold TranslatedFields._build_meta_class.
  destruct (_split_together_cases (Options.unique_together model_meta)
              tfields "unique_together")
    as [[Hall _]|(c' & Hc' & Hmixed' & ->)].
  - rewrite Forall_forall in Hall. by destruct (Hall c Hc).
  - by exists c'.
Qed.

Lemma _build_meta_class_index_mixed c :
  Forall (λ c, ¬ mixed tfields c) (Options.unique_together model_meta) →
  c ∈ Options.index_together model_meta → mixed tfields c →
  ∃ c', c' ∈ Options.index_together model_meta ∧ mixed tfields c'
    ∧ TranslatedFields._build_meta_class TABLE_NAME_FORMAT self model_meta
        tfields = Raise (ImproperlyConfigured_mixed "index_together" c').
Proof.
  intros Hunique Hc Hmixed. unfold TranslatedFields._build_meta_class.
  destruct (_split_together_cases (Options.unique_together model_meta)
              tfields "unique_together") as [[_ ->]|(c' & Hc' & Hmixed' & _)].
  2:{ rewrite Forall_forall in Hunique. by destruct (Hunique c' Hc'). }
  cbn [mbind result_bind Options.set_unique_together Options.index_together].
  destruct (_split_together_cases (Options.index_together model_meta)
              tfields "index_together")
    as [[Hall _]|(c' & Hc' & Hmixed' & ->)].
  - rewrite Forall_forall in Hall. by destruct (Hall c Hc).
  - by exists c'.
Qed.

(** Either no constraint is mixed, or a constraint of [unique_together]
    is, or none of them is and one of [index_together] is. *)
Lemma constraints_cases :
  (Forall (λ c, ¬ mixed tfields c) (Options.unique_together model_meta)
   ∧ Forall (λ c, ¬ mixed tfields c) (Options.index_together model_meta))
  ∨ (∃ c, c ∈ Options.unique_together model_meta ∧ mixed tfields c)
  ∨ (Forall (λ c, ¬ mixed tfields c) (Options.unique_together model_meta)
     ∧ ∃ c, c ∈ Options.index_together model_meta ∧ mixed tfields c).
Proof.
  destruct (first_mixed tfields (Options.unique_together model_meta))
    as [Hu|(pre & c & post & Heq & _ & Hc)].
  - destruct (first_mixed tfields (Options.index_together model_meta))
      as [Hi|(pre & c & post & Heq & _ & Hc)].
    + by left.
    + right. right. split; [done|]. exists c. split; [|done].
      rewrite Heq. apply elem_of_app. right. apply list_elem_of_here.
  - right. left. exists c. split; [|done].
    rewrite Heq. apply elem_of_app. right. apply list_elem_of_here.
Qed.

End synthesis_facts.

(** X8.  [_build_meta_class] raises only for a constraint that mixes
    translated and untranslated fields, those of [unique_together] being
    looked at first.  Otherwise the options of the translations model are
    those of the author, except that [abstract], [db_tablespace],
    [managed] and [app_label] are those of the shared model,
    [default_permissions] is empty, [db_table] is the author's if given
    and else the formatted name of the shared table, and
    [unique_together] and [index_together] are the wholly translated
    constraints of the shared model (whatever the author gave for them),
    with the pair (language_code, master) appended to [unique_together]
    for a concrete model; the shared model keeps the other constraints. *)
Theorem build_meta_class_options (TABLE_NAME_FORMAT : string → string)
    (self : TranslatedFields.t) (model_meta : Options.t)
    (tfields : gset string) :
  match TranslatedFields._build_meta_class TABLE_NAME_FORMAT self model_meta
          tfields with
  | Raise e =>
      (∃ c, c ∈ Options.unique_together model_meta ∧ mixed tfields c
            ∧ e = ImproperlyConfigured_mixed "unique_together" c)
      ∨ (Forall (λ c, ¬ mixed tfields c) (Options.unique_together model_meta)
         ∧ ∃ c, c ∈ Options.index_together model_meta ∧ mixed tfields c
                ∧ e = ImproperlyConfigured_mixed "index_together" c)
  | Ok (Meta, model_meta') =>
      Meta !! "abstract" = Some (MBool (Options.abstract model_meta))
      ∧ Meta !! "db_tablespace"
          = Some (MStr (Options.db_tablespace model_meta))
      ∧ Meta !! "managed" = Some (MBool (Options.managed model_meta))
      ∧ Meta !! "app_label" = Some (MStr (Options.app_label model_meta))
      ∧ Meta !! "default_permissions" = Some (MNames [])
      ∧ Meta !! "db_table"
          = Some (default
                    (MStr (TABLE_NAME_FORMAT (Options.db_table model_meta)))
                    (TranslatedFields.meta self !! "db_table"))
      ∧ Meta !! "unique_together"
          = Some (MTogether
                    (filter (all_translated tfields)
                       (Options.unique_together model_meta)
                     ++ (if Options.abstract model_meta then []
                         else [["language_code"; "master"]])))
      ∧ Meta !! "index_together"
          = Some (MTogether (filter (all_translated tfields)
                               (Options.index_together model_meta)))
      ∧ (∀ k, k ∉ ["abstract"; "db_tablespace"; "managed"; "app_label";
                    "db_table"; "default_permissions"; "unique_together";
                    "index_together"] →
              Meta !! k = TranslatedFields.meta self !! k)
      ∧ Options.unique_together model_meta'
          = filter (λ c, ¬ all_translated tfields c)
              (Options.unique_together model_meta)
      ∧ Options.index_together model_meta'
          = filter (λ c, ¬ all_translated tfields c)
              (Options.index_together model_meta)
  end.
Proof.
  destruct (constraints_cases model_meta tfields)
    as [[Hunique Hindex]|[(c & Hc & Hmixed)|(Hunique & c & Hc & Hmixed)]].
  - rewrite _build_meta_class_ok by done.
    split_and!; try (by simplify_map_eq).
    intros k Hk.
    rewrite !lookup_insert_ne; [done|..];
      intros <-; apply Hk; set_solver.
  - destruct (_build_meta_class_unique_mixed TABLE_NAME_FORMAT self
                model_meta tfields c Hc Hmixed) as (c' & Hc' & Hm' & ->).
    left. by exists c'.
  - destruct (_build_meta_class_index_mixed TABLE_NAME_FORMAT self
                model_meta tfields c Hunique Hc Hmixed)
      as (c' & Hc' & Hm' & ->).
    right. split; [done|]. by exists c'.
Qed.

Section create_facts.
Context (TABLE_NAME_FORMAT : string → string).
Context (self : TranslatedFields.t) (model : PyClass) (related_name : string).
Context (scanned : list TranslationsBase) (inherited : gset string).

Let tfields : gset string :=
  inherited ∪ dom (TranslatedFields.fields self) ∪ {["language_code"]}.
Let model_name : string := __name__ model +:+ "Translation".
Let abstract : bool := Options.abstract (_meta model).

(** The class body handed to the host, given the [Meta] options. *)
Let class_body (Meta : gmap string MetaValue) : gmap string Attr :=
  let attrs :=
    <["__module__" := ModuleName (__module__ model)]>
    (<["Meta" := MetaClass Meta]> (TranslatedFields.fields self)) in
  if negb abstract then
    let attrs :=
      <["master" := MasterKey (__name__ model) related_name]> attrs in
    if bool_decide ("language_code" ∉ dom attrs) then
      <["language_code" := LanguageCodeField]> attrs
    else attrs
  else attrs.

(** The bases handed to the host. *)
Let class_bases : list TranslationsBase :=
  match TranslatedFields.base_class self with
  | Some b => BaseClass b :: scanned
  | None => scanned
  end.

Lemma create_translations_model_ok :
  _scan_model_bases model = Ok (scanned, inherited) →
  Forall (λ c, ¬ mixed tfields c) (Options.unique_together (_meta model)) →
  Forall (λ c, ¬ mixed tfields c) (Options.index_together (_meta model)) →
  ∃ Meta model_meta',
    TranslatedFields._build_meta_class TABLE_NAME_FORMAT self (_meta model)
      tfields = Ok (Meta, model_meta')
    ∧ ∀ ModelBase,
        TranslatedFields.create_translations_model TABLE_NAME_FORMAT
          ModelBase self model related_name =
        let built := ModelBase model_name class_bases (class_body Meta) in
        Ok (TModel.mk (TModel.name built) (TModel.meta built)
              (Some (__name__ model))
              (if negb abstract then
                 [__name__ model +:+ ".DoesNotExist";
                  model_name +:+ ".DoesNotExist"]
               else TModel.DoesNotExist built),
            model_meta').
Proof.
  intros Hscan Hunique Hindex.
  pose proof (_build_meta_class_ok TABLE_NAME_FORMAT self (_meta model)
                tfields Hunique Hindex) as Hbuild.
  eexists _, _. split; [exact Hbuild|].
  intros ModelBase. unfold TranslatedFields.create_translations_model.
  rewrite Hscan. cbn [mbind result_bind]. fold tfields.
  rewrite Hbuild. cbn [mbind result_bind].
  unfold class_body, class_bases, model_name, abstract.
  change (Options.abstract (Options.set_index_together ?a
            (Options.set_unique_together ?b ?m)))
    with (Options.abstract m).
  by destruct (Options.abstract (_meta model)).
Qed.

End create_facts.

(** The outcomes of [contribute_to_class] when its two guards are passed:
    the scan raises, a constraint is mixed, or the class is built. *)
Lemma synthesis_cases
    (TABLE_NAME_FORMAT : string → string)
    (ModelBase : string → list TranslationsBase → gmap string Attr → TModel.t)
    (self : TranslatedFields.t) (model : PyClass) (name : string) :
  let meta := _meta model in
  let result :=
    TranslatedFields.contribute_to_class TABLE_NAME_FORMAT ModelBase self
      model name in
  (∀ f, Options.order_with_respect_to meta = Some f →
        f ∉ dom (TranslatedFields.fields self)) →
  Options.translations_model meta = None →
  (∃ e, _scan_model_bases model = Raise e ∧ result = Raise e)
  ∨ ∃ scanned inherited,
      _scan_model_bases model = Ok (scanned, inherited)
      ∧ let tfields : gset string :=
          inherited ∪ dom (TranslatedFields.fields self)
                    ∪ {["language_code"]} in
        (∃ c, c ∈ Options.unique_together meta ∧ mixed tfields c
              ∧ result = Raise (ImproperlyConfigured_mixed
                                  "unique_together" c))
        ∨ (Forall (λ c, ¬ mixed tfields c) (Options.unique_together meta)
           ∧ ∃ c, c ∈ Options.index_together meta ∧ mixed tfields c
                  ∧ result = Raise (ImproperlyConfigured_mixed
                                      "index_together" c))
        ∨ (Forall (λ c, ¬ mixed tfields c) (Options.unique_together meta)
           ∧ Forall (λ c, ¬ mixed tfields c) (Options.index_together meta)
           ∧ ∃ tm,
               TModel.shared_model tm = Some (__name__ model)
               ∧ result =
                   let model_meta :=
                     Options.set_translations_model tm
                       (Options.set_index_together
                          (filter (λ c, ¬ all_translated tfields c)
                             (Options.index_together meta))
                          (Options.set_unique_together
                             (filter (λ c, ¬ all_translated tfields c)
                                (Options.unique_together meta))
                             meta)) in
                   if Options.abstract meta then Ok model_meta
                   else Ok (Options.set_translations_accessor name
                              model_meta)).
Proof.
  intros meta result Horder Htm.
  unfold result, TranslatedFields.contribute_to_class. fold meta.
  assert (match Options.order_with_respect_to meta with
          | Some f => bool_decide (f ∈ dom (TranslatedFields.fields self))
          | None => false
          end = false) as ->.
  { destruct (Options.order_with_respect_to meta) as [f|]; [|done].
    apply bool_decide_eq_false. by apply Horder. }
  rewrite Htm. rewrite bool_decide_eq_false_2 by (by intros [? ?]).
  unfold TranslatedFields.create_translations_model.
  destruct (_scan_model_bases model) as [[scanned inherited]|e] eqn:Hscan;
    [|left; by exists e].
  right. exists scanned, inherited. split; [done|]. cbn zeta.
  cbn [mbind result_bind]. fold meta.
  destruct (constraints_cases meta
         (inherited ∪ dom (TranslatedFields.fields self) ∪ {["language_code"]}))
    as [[Hunique Hindex]|[(c & Hc & Hmixed)|(Hunique & c & Hc & Hmixed)]].
  - right. right. split; [done|]. split; [done|].
    rewrite (_build_meta_class_ok TABLE_NAME_FORMAT self meta _
               Hunique Hindex).
    cbn [mbind result_bind].
    cbn [Options.abstract Options.set_translations_model
         Options.set_index_together Options.set_unique_together].
    destruct (Options.abstract meta); cbn [negb];
      (eexists; split; [|reflexivity]; done).
  - destruct (_build_meta_class_unique_mixed TABLE_NAME_FORMAT self
                meta _ c Hc Hmixed) as (c' & Hc' & Hm' & ->).
    left. by exists c'.
  - destruct (_build_meta_class_index_mixed TABLE_NAME_FORMAT self
                meta _ c Hunique Hc Hmixed) as (c' & Hc' & Hm' & ->).
    right. left. split; [done|]. by exists c'.
Qed.

(** What a successful [contribute_to_class] went through and returns. *)
Lemma contribute_to_class_inv
    (TABLE_NAME_FORMAT : string → string)
    (ModelBase : string → list TranslationsBase → gmap string Attr → TModel.t)
    (self : TranslatedFields.t) (model : PyClass) (name : string)
    (model_meta' : Options.t) :
  TranslatedFields.contribute_to_class TABLE_NAME_FORMAT ModelBase self
    model name = Ok model_meta' →
  let meta := _meta model in
  valid_declaration self model
  ∧ ∃ scanned inherited tm,
      _scan_model_bases model = Ok (scanned, inherited)
      ∧ TModel.shared_model tm = Some (__name__ model)
      ∧ let tfields : gset string :=
          inherited ∪ dom (TranslatedFields.fields self)
                    ∪ {["language_code"]} in
        let model_meta :=
          Options.set_translations_model tm
            (Options.set_index_together
               (filter (λ c, ¬ all_translated tfields c)
                  (Options.index_together meta))
               (Options.set_unique_together
                  (filter (λ c, ¬ all_translated tfields c)
                     (Options.unique_together meta))
                  meta)) in
        model_meta' =
          if Options.abstract meta then model_meta
          else Options.set_translations_accessor name model_meta.
Proof.
  intros Hok meta. pose proof Hok as Hok'.
  unfold TranslatedFields.contribute_to_class in Hok. fold meta in Hok.
  assert (∀ f, Options.order_with_respect_to meta = Some f →
               f ∉ dom (TranslatedFields.fields self)) as Horder.
  { intros f Hf. rewrite Hf in Hok. by case_bool_decide. }
  assert (match Options.order_with_respect_to meta with
          | Some f => bool_decide (f ∈ dom (TranslatedFields.fields self))
          | None => false
          end = false) as Hguard.
  { destruct (Options.order_with_respect_to meta) as [f|]; [|done].
    apply bool_decide_eq_false. by apply Horder. }
  rewrite Hguard in Hok.
  destruct (Options.translations_model meta) as [tm0|] eqn:Htm.
  { by rewrite bool_decide_eq_true_2 in Hok by (by eexists). }
  clear Hok. rename Hok' into Hok.
  destruct (synthesis_cases TABLE_NAME_FORMAT ModelBase self model name
              Horder Htm)
    as [(e & _ & He)|(scanned & inherited & Hscan & Hcases)].
  { rewrite He in Hok. done. }
  cbn zeta in Hcases. fold meta in Hcases.
  destruct Hcases as [(c & _ & _ & He)|[(_ & c & _ & _ & He)
                      |(Hunique & Hindex & tm & Hshared & Heq)]].
  { rewrite He in Hok. done. }
  { rewrite He in Hok. done. }
  split.
  - split_and!; [done|done|by eapply scan_ok_unexposed|].
    intros scanned' inherited' Hscan'. rewrite Hscan in Hscan'.
    injection Hscan' as <- <-. done.
  - exists scanned, inherited, tm. split_and!; [done|done|].
    rewrite Heq in Hok. cbn zeta.
    destruct (Options.abstract meta); by injection Hok as <-.
Qed.

(** X4.  [contribute_to_class] builds the class exactly for a valid
    declaration: no translated field is the [order_with_respect_to] of the
    model, the model has no translations model yet, no base of the model
    is exposed, and no constraint of [unique_together] or [index_together]
    mixes translated and untranslated fields.  Otherwise it raises one of
    five exceptions, one per guard. *)
Theorem contribute_to_class_succeeds_iff
    (TABLE_NAME_FORMAT : string → string)
    (ModelBase : string → list TranslationsBase → gmap string Attr → TModel.t)
    (self : TranslatedFields.t) (model : PyClass) (name : string) :
  let result :=
    TranslatedFields.contribute_to_class TABLE_NAME_FORMAT ModelBase self
      model name in
  (raises result = false ↔ valid_declaration self model)
  ∧ (∀ e, result = Raise e →
       e = ImproperlyConfigured_order_wrt (Options.model_name (_meta model))
       ∨ e = ImproperlyConfigured_twice (__name__ model)
       ∨ (∃ base_name,
            e = TypeError_multi_table base_name
                  (Options.model_name (_meta model)))
       ∨ (∃ c, c ∈ Options.unique_together (_meta model)
               ∧ e = ImproperlyConfigured_mixed "unique_together" c)
       ∨ (∃ c, c ∈ Options.index_together (_meta model)
               ∧ e = ImproperlyConfigured_mixed "index_together" c)).
Proof.
  intros result.
  assert (∀ e, result = Raise e →
    (∀ f, Options.order_with_respect_to (_meta model) = Some f →
          f ∉ dom (TranslatedFields.fields self)) →
    e = ImproperlyConfigured_twice (__name__ model)
    ∨ (∃ base_name,
         e = TypeError_multi_table base_name
               (Options.model_name (_meta model)))
    ∨ (∃ c, c ∈ Options.unique_together (_meta model)
            ∧ e = ImproperlyConfigured_mixed "unique_together" c)
    ∨ (∃ c, c ∈ Options.index_together (_meta model)
            ∧ e = ImproperlyConfigured_mixed "index_together" c)) as guarded.
  { intros e He Horder.
    destruct (Options.translations_model (_meta model)) as [tm0|] eqn:Htm.
    { left. unfold result, TranslatedFields.contribute_to_class in He.
      assert (match Options.order_with_respect_to (_meta model) with
              | Some f => bool_decide (f ∈ dom (TranslatedFields.fields self))
              | None => false
              end = false) as Hguard.
      { destruct (Options.order_with_respect_to (_meta model)) as [f|];
          [|done].
        apply bool_decide_eq_false. by apply Horder. }
      rewrite Hguard, Htm in He.
      rewrite bool_decide_eq_true_2 in He by (by eexists). congruence. }
    right.
    destruct (synthesis_cases TABLE_NAME_FORMAT ModelBase self model name
                Horder Htm)
      as [(e' & Hscan & He')|(scanned & inherited & Hscan & Hcases)].
    { fold result in He'. left. rewrite He in He'. injection He' as <-.
      by eapply scan_raise_TypeError. }
    cbn zeta in Hcases. fold result in Hcases.
    destruct Hcases as [(c & Hc & _ & He')|[(_ & c & Hc & _ & He')
                        |(_ & _ & tm & _ & He')]].
    - right. left. exists c. split; [done|]. congruence.
    - right. right. exists c. split; [done|]. congruence.
    - rewrite He in He'. by destruct (Options.abstract (_meta model)). }
  split.
  - split; [|apply contribute_to_class_ok].
    unfold result. intros Hr.
    destruct (TranslatedFields.contribute_to_class TABLE_NAME_FORMAT
                ModelBase self model name) as [meta'|e] eqn:Hc; [|done].
    by destruct (contribute_to_class_inv _ _ _ _ _ _ Hc).
  - intros e He.
    destruct (Options.order_with_respect_to (_meta model)) as [f|] eqn:Hwrt.
    + destruct (decide (f ∈ dom (TranslatedFields.fields self))) as [Hf|Hf].
      * left. unfold result, TranslatedFields.contribute_to_class in He.
        rewrite Hwrt, bool_decide_eq_true_2 in He by done. congruence.
      * right. apply (guarded e He). intros ? [= <-]. done.
    + right. by apply (guarded e He).
Qed.

(** X5.  A model takes one set of translated fields only: once
    [contribute_to_class] has built the class, declaring translated fields
    again on the resulting model raises [ImproperlyConfigured], whatever
    the second declaration is (the error is the one of the
    [order_with_respect_to] guard when that guard applies, as it comes
    first). *)
Theorem second_declaration_rejected
    (TABLE_NAME_FORMAT : string → string)
    (ModelBase : string → list TranslationsBase → gmap string Attr → TModel.t)
    (self : TranslatedFields.t) (n m : string) (meta : Options.t)
    (bs : list PyClass) (name : string) (meta' : Options.t) :
  TranslatedFields.contribute_to_class TABLE_NAME_FORMAT ModelBase self
    (Class n m meta bs) name = Ok meta' →
  ∀ ModelBase' (self' : TranslatedFields.t) (name' : string),
    TranslatedFields.contribute_to_class TABLE_NAME_FORMAT ModelBase' self'
      (Class n m meta' bs) name'
    = Raise
        (if match Options.order_with_respect_to meta with
            | Some f => bool_decide (f ∈ dom (TranslatedFields.fields self'))
            | None => false
            end
         then ImproperlyConfigured_order_wrt (Options.model_name meta)
         else ImproperlyConfigured_twice n).
Proof.
  intros Hok ModelBase' self' name'.
  destruct (contribute_to_class_inv _ _ _ _ _ _ Hok)
    as (_ & scanned & inherited & tm & _ & _ & Hmeta').
  cbn zeta in Hmeta'. cbn [_meta] in Hmeta'.
  assert (Options.order_with_respect_to meta'
          = Options.order_with_respect_to meta
          ∧ Options.model_name meta' = Options.model_name meta
          ∧ is_Some (Options.translations_model meta')) as (Hwrt & Hname & Htm).
  { rewrite Hmeta'. destruct (Options.abstract meta); simpl;
      (split_and!; [done|done|by eexists]). }
  unfold TranslatedFields.contribute_to_class. cbn [_meta __name__].
  rewrite Hwrt, Hname.
  destruct (match Options.order_with_respect_to meta with
            | Some f => _ | None => _ end); [done|].
  by rewrite bool_decide_eq_true_2.
Qed.

Lemma second_declaration_rejected_witness :
  raises (TranslatedFields.contribute_to_class Example.TABLE_NAME_FORMAT
            Example.ModelBase Example.translated_fields Example.Story
            "translations") = false
  ∧ ∀ meta',
      TranslatedFields.contribute_to_class Example.TABLE_NAME_FORMAT
        Example.ModelBase Example.translated_fields Example.Story
        "translations" = Ok meta' →
      TranslatedFields.contribute_to_class Example.TABLE_NAME_FORMAT
        Example.ModelBase Example.translated_fields
        (Class "Story" "app.models" meta' [Example.AbstractBase])
        "more_translations"
      = Raise (ImproperlyConfigured_twice "Story").
Proof.
  split; [reflexivity|]. intros meta' Hok.
  exact (second_declaration_rejected _ _ _ _ _ _ _ _ _ Hok
           Example.ModelBase Example.translated_fields "more_translations").
Defined.

(** X6.  When [contribute_to_class] builds the class, the shared model
    keeps of [unique_together] and [index_together] the constraints that
    are not wholly translated, in their order, all of them non-empty and
    free of translated fields, and [original_attrs] records the same two
    values; a translations model is attached that refers back to the
    model; the accessor name is recorded for a concrete model and left
    alone for an abstract one; every other option of the model is
    unchanged. *)
Theorem contribute_to_class_shared_options
    (TABLE_NAME_FORMAT : string → string)
    (ModelBase : string → list TranslationsBase → gmap string Attr → TModel.t)
    (self : TranslatedFields.t) (model : PyClass) (name : string)
    (meta' : Options.t) :
  TranslatedFields.contribute_to_class TABLE_NAME_FORMAT ModelBase self
    model name = Ok meta' →
  let meta := _meta model in
  ∃ scanned inherited,
    _scan_model_bases model = Ok (scanned, inherited)
    ∧ let tfields : gset string :=
        inherited ∪ dom (TranslatedFields.fields self)
                  ∪ {["language_code"]} in
      Options.unique_together meta'
        = filter (λ c, ¬ all_translated tfields c)
            (Options.unique_together meta)
      ∧ Options.index_together meta'
          = filter (λ c, ¬ all_translated tfields c)
              (Options.index_together meta)
      ∧ Forall (λ c, c ≠ [] ∧ all_shared tfields c)
          (Options.unique_together meta' ++ Options.index_together meta')
      ∧ Options.original_attrs meta' !! "unique_together"
          = Some (Options.unique_together meta')
      ∧ Options.original_attrs meta' !! "index_together"
          = Some (Options.index_together meta')
      ∧ (∀ k, k ≠ "unique_together" → k ≠ "index_together" →
           Options.original_attrs meta' !! k
           = Options.original_attrs meta !! k)
      ∧ (∃ tm, Options.translations_model meta' = Some tm
               ∧ TModel.shared_model tm = Some (__name__ model))
      ∧ Options.translations_accessor meta'
          = (if Options.abstract meta then Options.translations_accessor meta
             else Some name)
      ∧ Options.model_name meta' = Options.model_name meta
      ∧ Options.abstract meta' = Options.abstract meta
      ∧ Options.db_tablespace meta' = Options.db_tablespace meta
      ∧ Options.managed meta' = Options.managed meta
      ∧ Options.app_label meta' = Options.app_label meta
      ∧ Options.db_table meta' = Options.db_table meta
      ∧ Options.order_with_respect_to meta'
          = Options.order_with_respect_to meta
      ∧ Options.fields meta' = Options.fields meta.
Proof.
  intros Hok meta.
  destruct (contribute_to_class_inv _ _ _ _ _ _ Hok)
    as ((_ & _ & _ & Hconstraints) & scanned & inherited & tm & Hscan
        & Hshared & Hmeta').
  exists scanned, inherited. split; [done|].
  destruct (Hconstraints _ _ Hscan) as [Hunique Hindex].
  subst meta. cbn zeta in *.
  set (meta := _meta model) in *.
  set (tfields := inherited ∪ dom (TranslatedFields.fields self)
                  ∪ {["language_code"]}) in *.
  assert (∀ cs, Forall (λ c, ¬ mixed tfields c) cs →
            Forall (λ c, c ≠ [] ∧ all_shared tfields c)
              (filter (λ c, ¬ all_translated tfields c) cs)) as Hshared_only.
  { intros cs Hcs. apply Forall_forall. intros c [Hnt Hc]%list_elem_of_filter.
    apply not_translated_shared; [|done].
    rewrite Forall_forall in Hcs. by apply Hcs. }
  rewrite Hmeta'.
  destruct (Options.abstract meta) eqn:Habs; simpl;
    (split_and!; try done;
     [ apply Forall_app; split; by apply Hshared_only
     | by simplify_map_eq
     | by simplify_map_eq
     | intros k Hk1 Hk2; by rewrite !lookup_insert_ne
     | by exists tm ]).
Qed.

Lemma contribute_to_class_shared_options_witness :
  ∃ meta',
    TranslatedFields.contribute_to_class Example.TABLE_NAME_FORMAT
      Example.ModelBase Example.translated_fields Example.Story
      "translations" = Ok meta'
    ∧ Options.unique_together meta' = [["slug"]]
    ∧ Options.index_together meta' = []
    ∧ Options.translations_accessor meta' = Some "translations".
Proof.
  destruct (TranslatedFields.contribute_to_class Example.TABLE_NAME_FORMAT
              Example.ModelBase Example.translated_fields Example.Story
              "translations") as [meta'|e] eqn:Hok; [|by vm_compute in Hok].
  exists meta'. split; [reflexivity|].
  destruct (contribute_to_class_shared_options _ _ _ _ _ _ Hok)
    as (scanned & inherited & Hscan & Hu & Hi & _ & _ & _ & _ & _ & Hacc & _).
  vm_compute in Hscan. injection Hscan as <- <-.
  rewrite Hu, Hi, Hacc. split_and!; reflexivity.
Defined.

(** The bases [_scan_model_bases] returns end with
    [BaseTranslationModel]. *)
Lemma scan_ok_last (model : PyClass) scanned inherited :
  _scan_model_bases model = Ok (scanned, inherited) →
  ∃ above, scanned = above ++ [BaseTranslationModel].
Proof.
  intros Hscan. pose proof (scan_ok_unexposed _ _ _ Hscan) as Hall.
  unfold _scan_model_bases in Hscan. rewrite scan_loop_collects in Hscan.
  - injection Hscan as <- _. by eexists.
  - rewrite Forall_forall in Hall. apply Forall_forall.
    intros b Hb Hexp. rewrite elem_of_reverse in Hb. by apply (Hall b).
Qed.

Local Ltac lookup_inserts :=
  repeat first [rewrite lookup_insert_eq | rewrite lookup_insert_ne by done].

(** X7.  What [create_translations_model] hands to the host, whatever the
    host makes of it, when the bases scan and no constraint is mixed: the
    name of the model followed by Translation; as bases the author's
    [base_class], if any, then the scanned bases, of which
    [BaseTranslationModel] is the last; as class body the declared
    fields, with [Meta] set to the options [_build_meta_class] returns and
    [__module__] to the module of the model, and, for a concrete model
    only, [master] set to the key to the model under the related name and
    [language_code] to the author's field of that name if there is one
    and to the default field otherwise.  The class the host returns is
    given the model as [shared_model] and, for a concrete model only, a
    [DoesNotExist] of its own. *)
Theorem create_translations_model_class
    (TABLE_NAME_FORMAT : string → string)
    (self : TranslatedFields.t) (model : PyClass) (related_name : string)
    (scanned : list TranslationsBase) (inherited : gset string) :
  let fields := TranslatedFields.fields self in
  let tfields : gset string := inherited ∪ dom fields ∪ {["language_code"]} in
  let abstract := Options.abstract (_meta model) in
  _scan_model_bases model = Ok (scanned, inherited) →
  Forall (λ c, ¬ mixed tfields c) (Options.unique_together (_meta model)) →
  Forall (λ c, ¬ mixed tfields c) (Options.index_together (_meta model)) →
  ∃ Meta model_meta' bases attrs,
    TranslatedFields._build_meta_class TABLE_NAME_FORMAT self (_meta model)
      tfields = Ok (Meta, model_meta')
    ∧ (∀ ModelBase,
         let built :=
           ModelBase (__name__ model +:+ "Translation") bases attrs in
         ∃ tm,
           TranslatedFields.create_translations_model TABLE_NAME_FORMAT
             ModelBase self model related_name = Ok (tm, model_meta')
           ∧ TModel.name tm = TModel.name built
           ∧ TModel.meta tm = TModel.meta built
           ∧ TModel.shared_model tm = Some (__name__ model)
           ∧ TModel.DoesNotExist tm
               = if abstract then TModel.DoesNotExist built
                 else [__name__ model +:+ ".DoesNotExist";
                       (__name__ model +:+ "Translation")
                         +:+ ".DoesNotExist"])
    ∧ bases = match TranslatedFields.base_class self with
              | Some b => BaseClass b :: scanned
              | None => scanned
              end
    ∧ last bases = Some BaseTranslationModel
    ∧ attrs !! "Meta" = Some (MetaClass Meta)
    ∧ attrs !! "__module__" = Some (ModuleName (__module__ model))
    ∧ attrs !! "master"
        = (if abstract then fields !! "master"
           else Some (MasterKey (__name__ model) related_name))
    ∧ attrs !! "language_code"
        = (if abstract then fields !! "language_code"
           else Some (default LanguageCodeField (fields !! "language_code")))
    ∧ ∀ k, k ≠ "Meta" → k ≠ "__module__" → k ≠ "master" →
           k ≠ "language_code" → attrs !! k = fields !! k.
Proof.
  intros fields tfields abstract Hscan Hunique Hindex.
  destruct (create_translations_model_ok TABLE_NAME_FORMAT self model
              related_name scanned inherited Hscan Hunique Hindex)
    as (Meta & model_meta' & Hbuild & Hcreate).
  destruct (scan_ok_last _ _ _ Hscan) as [above ->].
  exists Meta, model_meta'.
  exists (match TranslatedFields.base_class self with
          | Some b => BaseClass b :: above ++ [BaseTranslationModel]
          | None => above ++ [BaseTranslationModel]
          end).
  exists (let attrs :=
            <["__module__" := ModuleName (__module__ model)]>
            (<["Meta" := MetaClass Meta]> (TranslatedFields.fields self)) in
          if negb (Options.abstract (_meta model)) then
            let attrs :=
              <["master" := MasterKey (__name__ model) related_name]> attrs in
            if bool_decide ("language_code" ∉ dom attrs) then
              <["language_code" := LanguageCodeField]> attrs
            else attrs
          else attrs).
  split; [exact Hbuild|].
  split.
  { intros ModelBase built. eexists. split; [apply Hcreate|].
    cbn zeta. cbn [TModel.name TModel.meta TModel.shared_model
                   TModel.DoesNotExist].
    split_and!; try reflexivity. subst abstract.
    by destruct (Options.abstract (_meta model)). }
  split; [reflexivity|]. cbn zeta.
  split.
  { destruct (TranslatedFields.base_class self);
      [rewrite app_comm_cons|]; apply last_snoc. }
  subst abstract. fold fields.
  destruct (Options.abstract (_meta model)); cbn [negb].
  - split_and!; try (by lookup_inserts).
    intros k ? ? ? ?. by lookup_inserts.
  - case_bool_decide as Hlc.
    + assert (fields !! "language_code" = None) as Hnone.
      { apply not_elem_of_dom. intros Hin. apply Hlc.
        rewrite !dom_insert, !elem_of_union. by repeat right. }
      rewrite Hnone. split_and!; try (by lookup_inserts).
      intros k ? ? ? ?. by lookup_inserts.
    + assert (is_Some (fields !! "language_code")) as [lc Hsome].
      { apply elem_of_dom. rewrite !dom_insert, !elem_of_union in Hlc.
        rewrite !elem_of_singleton in Hlc. by destruct Hlc as [?|[?|[?|?]]]. }
      rewrite Hsome. split_and!; try (by lookup_inserts).
      intros k ? ? ? ?. by lookup_inserts.
Qed.

Lemma create_translations_model_class_witness :
  ∃ Meta attrs,
    (∃ model_meta' tm,
       TranslatedFields.create_translations_model Example.TABLE_NAME_FORMAT
         Example.ModelBase Example.translated_fields Example.Story
         "translations" = Ok (tm, model_meta')
       ∧ TModel.name tm
           = TModel.name
               (Example.ModelBase "StoryTranslation"
                  [Inherited "AbstractBaseTranslation"; BaseTranslationModel]
                  attrs))
    ∧ attrs !! "Meta" = Some (MetaClass Meta)
    ∧ attrs !! "master" = Some (MasterKey "Story" "translations")
    ∧ attrs !! "language_code" = Some LanguageCodeField
    ∧ attrs !! "title" = Some (FieldDef "CharField(max_length=250)").
Proof.
  destruct (_scan_model_bases Example.Story) as [[scanned inherited]|e]
    eqn:Hscan; [|by vm_compute in Hscan].
  destruct (create_translations_model_class Example.TABLE_NAME_FORMAT
              Example.translated_fields Example.Story "translations"
              scanned inherited Hscan)
    as (Meta & model_meta' & bases & attrs & _ & Hcreate & Hbases & _
        & HMeta & _ & Hmaster & Hlc & Hother).
  - vm_compute in Hscan. injection Hscan as <- <-.
    apply (bool_decide_unpack _). vm_compute. exact I.
  - vm_compute in Hscan. injection Hscan as <- <-.
    apply (bool_decide_unpack _). vm_compute. exact I.
  - exists Meta, attrs. split.
    + destruct (Hcreate Example.ModelBase) as (tm & Htm & Hname & _).
      exists model_meta', tm. split; [exact Htm|].
      rewrite Hname, Hbases. vm_compute in Hscan. by injection Hscan as <- _.
    + split_and!; [exact HMeta|exact Hmaster|exact Hlc|].
      by rewrite Hother.
Defined.

(** ** Rehydration from storage, whatever the row *)

(** The comprehension raises when the values run out before the loaded
    columns do, and leaves the values that remain when the columns do. *)
Lemma from_db_values_outcome (field_names : list string)
    (fields : list Field.t) : ∀ values,
  let loaded := length (present field_names fields) in
  ((length values < loaded)%nat →
   from_db_values fields field_names (reverse values) = Raise IndexError_pop)
  ∧ ((loaded ≤ length values)%nat →
     ∃ args,
       from_db_values fields field_names (reverse values) = Ok args
       ∧ rehydrated field_names fields (take loaded values) args).
Proof.
  unfold present.
  induction fields as [|f fields IH]; intros values; cbn zeta.
  { split; [simpl; lia|]. intros _. exists []. split; [done|]. constructor. }
  rewrite filter_cons. cbn [from_db_values]. case_bool_decide as Hf.
  - rewrite decide_True by done. cbn [length].
    destruct values as [|v values].
    { split; [done|]. simpl. lia. }
    rewrite reverse_cons, pop_snoc. cbn [length].
    destruct (IH values) as [IHraise IHok]. split.
    + intros Hlt. rewrite IHraise by lia. done.
    + intros Hle. destruct IHok as (args & -> & Hargs); [lia|].
      exists (v :: args). split; [done|].
      cbn [take]. by constructor.
  - rewrite decide_False by done.
    destruct (IH values) as [IHraise IHok]. split.
    + intros Hlt. by rewrite IHraise.
    + intros Hle. destruct IHok as (args & -> & Hargs); [done|].
      exists (DEFERRED :: args). split; [done|]. by constructor.
Qed.

(** X9.  [from_db] raises exactly when the row has neither one value per
    concrete field nor at least one value per loaded column, and the
    exception is the [IndexError] of [pop] on an empty list.  A row with
    one value per concrete field is taken as it is, whatever
    [field_names] holds; any other row gives the loaded columns its first
    values in order, [DEFERRED] to the other concrete fields, and drops
    the values that are left.  The entity is marked as stored in [db]. *)
Theorem from_db_outcome (cls : ModelClass.t) (get_language : option string)
    (db : string) (field_names : list string) (values : list value) :
  let fields := ModelClass.concrete_fields cls in
  let loaded := length (present field_names fields) in
  match from_db cls get_language db field_names values with
  | Raise e =>
      e = IndexError_pop
      ∧ length values ≠ length fields
      ∧ (length values < loaded)%nat
  | Ok new =>
      let args := Shared.args (Entity.shared new) in
      (if bool_decide (length values = length fields) then args = values
       else (loaded ≤ length values)%nat
            ∧ rehydrated field_names fields (take loaded values) args
            ∧ length args = length fields)
      ∧ Shared.adding (Entity.shared new) = false
      ∧ Shared.db (Entity.shared new) = Some db
  end.
Proof.
  intros fields loaded. unfold from_db. fold fields.
  destruct (from_db_values_outcome field_names fields values)
    as [Hraise Hok]. fold loaded in Hraise, Hok.
  case_bool_decide as Hne.
  - rewrite bool_decide_eq_false_2 by done.
    destruct (decide (length values < loaded)%nat) as [Hlt|Hge].
    + rewrite Hraise by done. done.
    + destruct Hok as (args & -> & Hargs); [lia|].
      cbn [mbind result_bind]. rewrite __init___closed. cbn.
      split_and!; try done; [lia|].
      apply (rehydrated_length field_names _ _ _ Hargs).
  - rewrite bool_decide_eq_true_2 by done.
    cbn [mbind result_bind]. rewrite __init___closed. by cbn.
Qed.

(** ** Persistence, beyond the shared names *)

Lemma split_update_fields_translated opts (names : list string) :
  Forall (λ n, is_shared_name opts n = false) names →
  split_update_fields opts names [] [] = ([], names).
Proof.
  intros Hall. rewrite split_update_fields_spec. simpl. f_equal.
  - induction Hall as [|n names Hn _ IH]; [done|].
    rewrite filter_cons_False by congruence. done.
  - induction Hall as [|n names Hn _ IH]; [done|].
    rewrite filter_cons_True by done. by rewrite IH.
Qed.

(** X10.  When every name of [update_fields] belongs to the translated
    namespace, [save] leaves the shared record and its table alone and the
    save of the shared model plays no part.  With a non-empty list and an
    attached translation it does exactly the write of that translation,
    with the entity's shared record as its [master]: restricted to the
    same [update_fields] when the translation has a primary key, and
    without [update_fields] when it has none, so that a new translation
    is written in full.  With an empty list or no translation attached it
    does nothing. *)
Theorem save_translated_update_fields {SharedTable TranslationsTable : Type}
    (Model_save : Shared.t → list value → SaveKwargs → SharedTable →
                  result (Shared.t * SharedTable))
    (Translation_save : Translation.t → list value → SaveKwargs →
                        TranslationsTable →
                        result (Translation.t * TranslationsTable))
    (cls : ModelClass.t) (self : Entity.t) (args : list value)
    (names : list string) (other_kwargs : gmap string value)
    (database : @Database SharedTable TranslationsTable) :
  let opts := ModelClass.translations_opts cls in
  let kwargs := mkSaveKwargs (Some names) other_kwargs in
  Forall (λ n, is_shared_name opts n = false) names →
  save Model_save Translation_save cls self args kwargs database =
    match Entity.cached_translation self with
    | Some translation =>
        if list_truthy names then
          '(translation, table) ←
            Translation_save
              (Translation.mk (Translation.values translation)
                 (Some (Entity.shared self)) (Translation.adding translation))
              args
              (if bool_decide (Translation.pk opts translation = None_)
               then mkSaveKwargs None other_kwargs else kwargs)
              (translations_table database);
          Ok (set_cached_translation self translation,
              mkDatabase (shared_table database) table)
        else Ok (self, database)
    | None => Ok (self, database)
    end
  ∧ match save Model_save Translation_save cls self args kwargs database with
    | Ok (self', database') =>
        shared_table database' = shared_table database
        ∧ Entity.shared self' = Entity.shared self
    | Raise _ => True
    end
  ∧ (∀ Model_save',
       save Model_save' Translation_save cls self args kwargs database =
       save Model_save Translation_save cls self args kwargs database).
Proof.
  intros opts kwargs Htranslated.
  assert (∀ MS : Shared.t → list value → SaveKwargs → SharedTable →
                 result (Shared.t * SharedTable),
    save MS Translation_save cls self args kwargs database =
      match Entity.cached_translation self with
      | Some translation =>
          if list_truthy names then
            '(translation, table) ←
              Translation_save
                (Translation.mk (Translation.values translation)
                   (Some (Entity.shared self))
                   (Translation.adding translation))
                args
                (if bool_decide (Translation.pk opts translation = None_)
                 then mkSaveKwargs None other_kwargs else kwargs)
                (translations_table database);
            Ok (set_cached_translation self translation,
                mkDatabase (shared_table database) table)
          else Ok (self, database)
      | None => Ok (self, database)
      end) as Hsave.
  { intros MS. unfold save. fold opts. unfold kwargs at 1 2 3. simpl.
    rewrite split_update_fields_translated by done. simpl.
    unfold get_cached_translation.
    destruct (Entity.cached_translation self) as [translation|]; [|done].
    destruct names as [|n names]; simpl; [done|].
    rewrite andb_true_r. fold kwargs.
    by destruct (bool_decide (Translation.pk opts translation = None_)). }
  split_and!.
  - apply Hsave.
  - rewrite Hsave.
    destruct (Entity.cached_translation self) as [translation|]; [|done].
    destruct (list_truthy names); [|done].
    destruct (Translation_save _ _ _ _) as [[translation' table]|e]; done.
  - intros MS'. by rewrite !Hsave.
Qed.

Lemma save_translated_update_fields_witness :
  Forall (λ n, is_shared_name Example.translations_opts n = false) ["title"]
  ∧ ∃ self' translation,
      save Example.Model_save Example.Translation_save Example.Article_class
        Example.article [] (mkSaveKwargs (Some ["title"]) ∅)
        (mkDatabase [] [])
      = Ok (self', mkDatabase [] [translation])
      ∧ Translation.master translation = Some (Entity.shared Example.article).
Proof.
  assert (Forall (λ n, is_shared_name Example.translations_opts n = false)
            ["title"]) as Htranslated.
  { constructor; [reflexivity|constructor]. }
  split; [exact Htranslated|].
  rewrite (proj1 (save_translated_update_fields Example.Model_save
    Example.Translation_save Example.Article_class Example.article []
    ["title"] ∅ (mkDatabase [] []) Htranslated)).
  eexists _, _. split; reflexivity.
Defined.

(** X11.  Without an attached translation [save] is the save of the
    shared record: the translations table is what it was, no translation
    gets attached and the save of a translation record plays no part,
    whatever the keyword arguments.  Of [update_fields] the shared write
    is given the names of the shared namespace, in their order, and is
    skipped when that list is empty. *)
Theorem save_without_translation {SharedTable TranslationsTable : Type}
    (Model_save : Shared.t → list value → SaveKwargs → SharedTable →
                  result (Shared.t * SharedTable))
    (Translation_save : Translation.t → list value → SaveKwargs →
                        TranslationsTable →
                        result (Translation.t * TranslationsTable))
    (cls : ModelClass.t) (self : Entity.t) (args : list value)
    (kwargs : SaveKwargs)
    (database : @Database SharedTable TranslationsTable) :
  let opts := ModelClass.translations_opts cls in
  let skwargs :=
    mkSaveKwargs
      (filter (λ n, is_shared_name opts n = true) <$> update_fields kwargs)
      (other kwargs) in
  Entity.cached_translation self = None →
  save Model_save Translation_save cls self args kwargs database =
    (if from_option list_truthy true (update_fields skwargs) then
       '(shared, table) ←
         Model_save (Entity.shared self) args skwargs (shared_table database);
       Ok (Entity.mk shared None,
           mkDatabase table (translations_table database))
     else Ok (self, database))
  ∧ match save Model_save Translation_save cls self args kwargs database with
    | Ok (self', database') =>
        translations_table database' = translations_table database
        ∧ Entity.cached_translation self' = None
    | Raise _ => True
    end
  ∧ (∀ Translation_save',
       save Model_save Translation_save' cls self args kwargs database =
       save Model_save Translation_save cls self args kwargs database).
Proof.
  intros opts skwargs Hnone.
  assert (∀ TS : Translation.t → list value → SaveKwargs →
                 TranslationsTable →
                 result (Translation.t * TranslationsTable),
    save Model_save TS cls self args kwargs database =
      (if from_option list_truthy true (update_fields skwargs) then
         '(shared, table) ←
           Model_save (Entity.shared self) args skwargs
             (shared_table database);
         Ok (Entity.mk shared None,
             mkDatabase table (translations_table database))
       else Ok (self, database))) as Hsave.
  { intros TS. unfold save. fold opts. unfold get_cached_translation.
    rewrite Hnone. subst skwargs. destruct kwargs as [[names|] other_kwargs];
      simpl.
    - rewrite split_update_fields_spec. simpl.
      destruct (filter _ names) as [|n shared_names]; simpl; [done|].
      by destruct (Model_save _ _ _ _) as [[shared table]|e].
    - by destruct (Model_save _ _ _ _) as [[shared table]|e]. }
  split_and!.
  - apply Hsave.
  - rewrite Hsave.
    destruct (from_option list_truthy true (update_fields skwargs));
      [|done].
    destruct (Model_save _ _ _ _) as [[shared table]|e]; done.
  - intros TS'. by rewrite !Hsave.
Qed.

Lemma save_without_translation_witness :
  ∃ stored,
    from_db Example.Article_class (Some "en") "default" ["id"; "slug"]
      [Int 7; Str "s"] = Ok stored
    ∧ Entity.cached_translation stored = None
    ∧ save Example.Model_save Example.Translation_save Example.Article_class
        stored [] (mkSaveKwargs (Some ["title"; "slug"]) ∅)
        (mkDatabase [] [])
      = Ok (stored, mkDatabase [Entity.shared stored] []).
Proof.
  set (stored := Entity.mk
                   (Shared.mk [Int 7; Str "s"] ∅ false (Some "default")) None).
  exists stored. split; [reflexivity|]. split; [reflexivity|].
  rewrite (proj1 (save_without_translation Example.Model_save
    Example.Translation_save Example.Article_class stored []
    (mkSaveKwargs (Some ["title"; "slug"]) ∅) (mkDatabase [] []) eq_refl)).
  reflexivity.
Defined.

(** X12.  Without [update_fields], [save] writes the shared record and
    then, when a translation is attached, the translation, both with the
    keyword arguments it was given.  The translation is written with the
    entity's shared record as its [master] and sees the shared table
    already written; the entity then holds the two records as the host
    returned them.  An exception of either write is the outcome of
    [save], and the translation is not written when the shared write
    raises. *)
Theorem save_all_fields {SharedTable TranslationsTable : Type}
    (Model_save : Shared.t → list value → SaveKwargs → SharedTable →
                  result (Shared.t * SharedTable))
    (Translation_save : Translation.t → list value → SaveKwargs →
                        TranslationsTable →
                        result (Translation.t * TranslationsTable))
    (cls : ModelClass.t) (self : Entity.t) (args : list value)
    (other_kwargs : gmap string value)
    (database : @Database SharedTable TranslationsTable) :
  let kwargs := mkSaveKwargs None other_kwargs in
  match Model_save (Entity.shared self) args kwargs (shared_table database)
  with
  | Raise e =>
      save Model_save Translation_save cls self args kwargs database = Raise e
  | Ok (shared, table) =>
      match Entity.cached_translation self with
      | None =>
          save Model_save Translation_save cls self args kwargs database
          = Ok (Entity.mk shared None,
                mkDatabase table (translations_table database))
      | Some translation =>
          match Translation_save
                  (Translation.mk (Translation.values translation)
                     (Some shared) (Translation.adding translation))
                  args kwargs (translations_table database) with
          | Raise e =>
              save Model_save Translation_save cls self args kwargs database
              = Raise e
          | Ok (translation', table') =>
              save Model_save Translation_save cls self args kwargs database
              = Ok (Entity.mk shared (Some translation'),
                    mkDatabase table table')
          end
      end
  end.
Proof.
  intros kwargs. unfold save, get_cached_translation. simpl.
  destruct (Model_save _ _ _ _) as [[shared table]|e]; simpl; [|done].
  destruct (Entity.cached_translation self) as [translation|]; [|done].
  rewrite andb_false_r. simpl.
  by destruct (Translation_save _ _ _ _) as [[translation' table']|e].
Qed.
